(** * tokenlay-sdk-js: header codec, configuration check, URL builder and
      client facade, embedded from [src/utils.ts] and [src/client.ts]. *)

From Stdlib Require Import ZArith NArith String Ascii List Bool Lia.
From stdpp Require Import base option gmap strings pretty.

Local Open Scope string_scope.
Set Warnings "-register-all".

(** ** Host language

    The part of JavaScript the SDK relies on.  Header names and values are
    byte strings (one code unit per character), which is what the Fetch
    [Headers] class hands out. *)
Module Js.

(** A Number.  [Dec neg m e] is the value [(-1)^neg * m * 10^e]; both
    zeros and every finite double are of this form.  Decimal text read by
    [parseInt], [parseFloat] and [JSON.parse] is kept with the value it
    denotes; the rounding to 64 bits, and the overflow to an infinity, are
    not represented.  A parsed Number is therefore the one the code holds
    when the text denotes a value that a double holds exactly, such as an
    integer of magnitude up to 2^53; statements about parsed values beyond
    that are not made. *)
Inductive Number : Type :=
| NaN
| Inf (neg : bool)
| Dec (neg : bool) (m : N) (e : Z).

Definition of_N (n : N) : Number := Dec false n 0.

(** Values thrown by the synchronous code of the SDK. *)
Inductive Exception : Type :=
| Error (message : string)
| SyntaxError.

Inductive Completion (A : Type) : Type :=
| Return (a : A)
| Throw (e : Exception).
Arguments Return {A} a.
Arguments Throw {A} e.

Definition bind {A B} (c : Completion A) (k : A -> Completion B) : Completion B :=
  match c with
  | Return a => k a
  | Throw e => Throw e
  end.

(** ToBoolean on [string | undefined] and on [number | undefined]. *)
Definition truthy_string (v : option string) : bool :=
  match v with
  | None => false
  | Some "" => false
  | Some _ => true
  end.

Definition truthy_number (v : option Number) : bool :=
  match v with
  | None => false
  | Some NaN => false
  | Some (Inf _) => true
  | Some (Dec _ m _) => negb (m =? 0)%N
  end.

(** [a || b] where [a : string | undefined] and [b : string]. *)
Definition or_string (a : option string) (b : string) : string :=
  match a with
  | Some s => if truthy_string a then s else b
  | None => b
  end.

Definition or_number (a : option Number) (b : Number) : Number :=
  match a with
  | Some n => if truthy_number a then n else b
  | None => b
  end.

(** [s.replace(/\/$/, '')]: without the [m] flag [$] matches at the end of
    the input only, so at most the last character goes. *)
Fixpoint strip_trailing_slash (s : string) : string :=
  match s with
  | "" => ""
  | String c rest =>
      match rest with
      | "" => if Ascii.eqb c "/" then "" else s
      | _ => String c (strip_trailing_slash rest)
      end
  end.

(** [s.replace(/^\//, '')]. *)
Definition strip_leading_slash (s : string) : string :=
  match s with
  | String c rest => if Ascii.eqb c "/" then rest else s
  | "" => ""
  end.

(** *** Property assignment

    [target[key] = value] on an ordinary object with a string value.  The
    name [__proto__] is an accessor inherited from [Object.prototype], whose
    setter ignores a string: unless [target] has an own property of that
    name, the assignment stores nothing.  (An object spread defines own
    properties and does not go through the setter.) *)
Definition set_property (target : gmap string string) (key value : string)
    : gmap string string :=
  if decide (key = "__proto__") then
    match target !! key with
    | Some _ => <[key := value]> target
    | None => target
    end
  else <[key := value]> target.

(** [Object.assign(target, source)]: one assignment per own property of
    [source]. *)
Definition Object_assign (target source : gmap string string)
    : gmap string string :=
  map_fold (fun key value acc => set_property acc key value) target source.

(** *** Numeric parsing *)

Definition code (c : ascii) : N := N_of_ascii c.

(** WhiteSpace and LineTerminator code units below 256: TAB, LF, VT, FF,
    CR, SP and NBSP. *)
Definition is_space (c : ascii) : bool :=
  match code c with
  | 9 | 10 | 11 | 12 | 13 | 32 | 160 => true
  | _ => false
  end%N.

Definition digit_of (c : ascii) : option N :=
  let n := code c in
  if (48 <=? n)%N && (n <=? 57)%N then Some (n - 48)%N else None.

Fixpoint trim_start (s : string) : string :=
  match s with
  | String c rest => if is_space c then trim_start rest else s
  | "" => ""
  end.

(** Longest run of decimal digits at the front of [s]: its value on top
    of [acc], how many digits were read, and what follows. *)
Fixpoint read_digits (s : string) (acc : N) (count : nat) : N * nat * string :=
  match s with
  | String c rest =>
      match digit_of c with
      | Some d => read_digits rest (acc * 10 + d)%N (S count)
      | None => (acc, count, s)
      end
  | "" => (acc, count, "")
  end.

Definition read_sign (s : string) : bool * string :=
  match s with
  | String "-" rest => (true, rest)
  | String "+" rest => (false, rest)
  | _ => (false, s)
  end.

(** [parseInt(s, 10)]. *)
Definition parseInt10 (s : string) : Number :=
  let '(neg, body) := read_sign (trim_start s) in
  match read_digits body 0 0 with
  | (_, O, _) => NaN
  | (m, _, _) => Dec neg m 0
  end.

(** The ExponentPart of a StrDecimalLiteral at the front of [s], or 0
    when there is none. *)
Definition read_exponent (s : string) : Z :=
  match s with
  | String c rest =>
      if Ascii.eqb c "e" || Ascii.eqb c "E" then
        let '(eneg, digits) := read_sign rest in
        match read_digits digits 0 0 with
        | (_, O, _) => 0%Z
        | (x, _, _) => if eneg then (- Z.of_N x)%Z else Z.of_N x
        end
      else 0%Z
  | "" => 0%Z
  end.

(** [parseFloat(s)]: the longest prefix of the trimmed text that is a
    StrDecimalLiteral. *)
Definition parseFloat (s : string) : Number :=
  let '(neg, body) := read_sign (trim_start s) in
  if String.prefix "Infinity" body then Inf neg else
  let '(ip, ni, after_int) := read_digits body 0 0 in
  let '(m, nf, after_frac) :=
    match after_int with
    | String "." rest => read_digits rest ip 0
    | _ => (ip, O, after_int)
    end in
  match ni, nf with
  | O, O => NaN
  | _, _ => Dec neg m (read_exponent after_frac - Z.of_nat nf)
  end.

(** The last character of [s], if there is one. *)
Fixpoint last_char (s : string) : option ascii :=
  match s with
  | "" => None
  | String c rest =>
      match rest with
      | "" => Some c
      | _ => last_char rest
      end
  end.

Definition ends_with_slash (s : string) : bool :=
  match last_char s with
  | Some c => Ascii.eqb c "/"
  | None => false
  end.

Definition starts_with_slash (s : string) : bool :=
  match s with
  | String c _ => Ascii.eqb c "/"
  | "" => false
  end.

End Js.

(** ** JSON.parse

    The JSON grammar of ECMA-404 read one code unit at a time by a pushdown
    recogniser that builds the value as it goes: a stack of the arrays and
    objects that are still open, and a mode that says what may come next. *)
Module JSON.
Import Js.

(** A string of the parsed value is a list of UTF-16 code units, since a
    [\u] escape can denote any of them.  An object is the map of its own
    properties: a member whose key occurred before replaces the earlier
    value. *)
Inductive Json : Type :=
| JNull
| JBool (b : bool)
| JNum (n : Number)
| JStr (s : list N)
| JArr (elements : list Json)
| JObj (members : gmap (list N) Json).

(** An array or object that is still open: an array with its elements so
    far in reverse, an object with its properties so far and the key that
    awaits its value. *)
Inductive Frame : Type :=
| FArr (elements : list Json)
| FObj (members : gmap (list N) Json) (key : option (list N)).

Inductive NumState : Type :=
| NMinus | NZero | NInt | NDot | NFrac | NExp | NExpSign | NExpDigits.

Record NumAcc : Type := {
  n_neg : bool;   (* leading minus *)
  n_mant : N;     (* integer and fraction digits read as one integer *)
  n_frac : Z;     (* number of fraction digits *)
  n_eneg : bool;  (* minus in the exponent *)
  n_exp : N;      (* exponent digits *)
}.

Inductive StrState : Type :=
| SPlain
| SEscape
| SUnicode (remaining : nat) (acc : N).

Inductive Mode : Type :=
| MValue                     (* a value must start here *)
| MArrStart                  (* after an opening bracket *)
| MObjStart                  (* after an opening brace *)
| MKey                       (* after a comma inside an object *)
| MColon                     (* after a member's key *)
| MString (key : bool) (st : StrState) (acc : list N)
| MNumber (st : NumState) (acc : NumAcc)
| MLiteral (rest : string) (v : Json)
| MAfter.                    (* a value has just been finished *)

Record State : Type := {
  stack : list Frame;
  mode : Mode;
  result : option Json;      (* the finished top-level value *)
}.

Definition initial : State := {| stack := []; mode := MValue; result := None |}.

Definition is_ws (c : ascii) : bool :=
  match code c with
  | 9 | 10 | 13 | 32 => true
  | _ => false
  end%N.

Definition hex_of (c : ascii) : option N :=
  let n := code c in
  if (48 <=? n)%N && (n <=? 57)%N then Some (n - 48)%N
  else if (65 <=? n)%N && (n <=? 70)%N then Some (n - 55)%N
  else if (97 <=? n)%N && (n <=? 102)%N then Some (n - 87)%N
  else None.

Definition number_value (a : NumAcc) : Number :=
  Dec (n_neg a) (n_mant a)
      ((if n_eneg a then - Z.of_N (n_exp a) else Z.of_N (n_exp a)) - n_frac a).

Definition push_digit (a : NumAcc) (d : N) : NumAcc :=
  {| n_neg := n_neg a; n_mant := n_mant a * 10 + d; n_frac := n_frac a;
     n_eneg := n_eneg a; n_exp := n_exp a |}.
Definition push_frac (a : NumAcc) (d : N) : NumAcc :=
  {| n_neg := n_neg a; n_mant := n_mant a * 10 + d; n_frac := n_frac a + 1;
     n_eneg := n_eneg a; n_exp := n_exp a |}.
Definition push_exp (a : NumAcc) (d : N) : NumAcc :=
  {| n_neg := n_neg a; n_mant := n_mant a; n_frac := n_frac a;
     n_eneg := n_eneg a; n_exp := n_exp a * 10 + d |}.
Definition set_eneg (a : NumAcc) (b : bool) : NumAcc :=
  {| n_neg := n_neg a; n_mant := n_mant a; n_frac := n_frac a;
     n_eneg := b; n_exp := n_exp a |}.
Definition start_number (neg : bool) (d : N) : NumAcc :=
  {| n_neg := neg; n_mant := d; n_frac := 0; n_eneg := false; n_exp := 0 |}.

(** The value [v] is complete: hand it to the enclosing array or object,
    or keep it as the result. *)
Definition complete (v : Json) (stk : list Frame) : option State :=
  match stk with
  | [] => Some {| stack := []; mode := MAfter; result := Some v |}
  | FArr els :: up =>
      Some {| stack := FArr (v :: els) :: up; mode := MAfter; result := None |}
  | FObj mems (Some k) :: up =>
      Some {| stack := FObj (<[k := v]> mems) None :: up; mode := MAfter; result := None |}
  | FObj _ None :: _ => None
  end.

Definition goto (stk : list Frame) (m : Mode) : option State :=
  Some {| stack := stk; mode := m; result := None |}.

(** What may start a value. *)
Definition step_value (stk : list Frame) (c : ascii) : option State :=
  match code c with
  | 34 (* quote *) => goto stk (MString false SPlain [])
  | 45 (* - *) => goto stk (MNumber NMinus (start_number true 0))
  | 48 (* 0 *) => goto stk (MNumber NZero (start_number false 0))
  | 91 (* [ *) => goto (FArr [] :: stk) MArrStart
  | 123 (* { *) => goto (FObj ∅ None :: stk) MObjStart
  | 116 (* t *) => goto stk (MLiteral "rue" (JBool true))
  | 102 (* f *) => goto stk (MLiteral "alse" (JBool false))
  | 110 (* n *) => goto stk (MLiteral "ull" JNull)
  | _ =>
      match digit_of c with
      | Some d => goto stk (MNumber NInt (start_number false d))
      | None => None
      end
  end%N.

(** What may follow a finished value. *)
Definition step_after (s : State) (c : ascii) : option State :=
  if is_ws c then Some s else
  match code c, stack s with
  | 44 (* , *), FArr _ :: _ => goto (stack s) MValue
  | 44 (* , *), FObj _ None :: _ => goto (stack s) MKey
  | 93 (* ] *), FArr els :: up => complete (JArr (rev els)) up
  | 125 (* } *), FObj mems None :: up => complete (JObj mems) up
  | _, _ => None
  end%N.

Definition step_string (stk : list Frame) (key : bool) (st : StrState)
    (acc : list N) (c : ascii) : option State :=
  match st with
  | SPlain =>
      match code c with
      | 34 (* quote *) =>
          if key then
            match stk with
            | FObj mems None :: up => goto (FObj mems (Some (rev acc)) :: up) MColon
            | _ => None
            end
          else complete (JStr (rev acc)) stk
      | 92 (* backslash *) => goto stk (MString key SEscape acc)
      | n => if (n <? 32)%N then None else goto stk (MString key SPlain (n :: acc))
      end%N
  | SEscape =>
      match code c with
      | 34 | 92 | 47 => goto stk (MString key SPlain (code c :: acc))
      | 98 (* b *) => goto stk (MString key SPlain (8 :: acc))
      | 102 (* f *) => goto stk (MString key SPlain (12 :: acc))
      | 110 (* n *) => goto stk (MString key SPlain (10 :: acc))
      | 114 (* r *) => goto stk (MString key SPlain (13 :: acc))
      | 116 (* t *) => goto stk (MString key SPlain (9 :: acc))
      | 117 (* u *) => goto stk (MString key (SUnicode 3 0) acc)
      | _ => None
      end%N
  | SUnicode remaining u =>
      match hex_of c with
      | Some h =>
          match remaining with
          | O => goto stk (MString key SPlain ((u * 16 + h)%N :: acc))
          | S k => goto stk (MString key (SUnicode k (u * 16 + h)%N) acc)
          end
      | None => None
      end
  end.

Definition is_e (c : ascii) : bool := Ascii.eqb c "e" || Ascii.eqb c "E".

(** The number ends before [c]. *)
Definition end_number (stk : list Frame) (a : NumAcc) (c : ascii) : option State :=
  match complete (JNum (number_value a)) stk with
  | Some s => step_after s c
  | None => None
  end.

Definition step_number (stk : list Frame) (st : NumState) (a : NumAcc)
    (c : ascii) : option State :=
  match st, digit_of c with
  | NMinus, Some 0%N => goto stk (MNumber NZero a)
  | NMinus, Some d => goto stk (MNumber NInt (push_digit a d))
  | NMinus, None => None
  | NZero, Some _ => None
  | NInt, Some d => goto stk (MNumber NInt (push_digit a d))
  | (NZero | NInt), None =>
      if Ascii.eqb c "." then goto stk (MNumber NDot a)
      else if is_e c then goto stk (MNumber NExp a)
      else end_number stk a c
  | (NDot | NFrac), Some d => goto stk (MNumber NFrac (push_frac a d))
  | NDot, None => None
  | NFrac, None =>
      if is_e c then goto stk (MNumber NExp a) else end_number stk a c
  | (NExp | NExpSign | NExpDigits), Some d => goto stk (MNumber NExpDigits (push_exp a d))
  | NExp, None =>
      if Ascii.eqb c "+" then goto stk (MNumber NExpSign a)
      else if Ascii.eqb c "-" then goto stk (MNumber NExpSign (set_eneg a true))
      else None
  | NExpSign, None => None
  | NExpDigits, None => end_number stk a c
  end.

Definition step (s : State) (c : ascii) : option State :=
  match mode s with
  | MValue => if is_ws c then Some s else step_value (stack s) c
  | MArrStart =>
      if is_ws c then Some s
      else if Ascii.eqb c "]" then
        match stack s with
        | FArr els :: up => complete (JArr (rev els)) up
        | _ => None
        end
      else step_value (stack s) c
  | MObjStart =>
      if is_ws c then Some s
      else if Ascii.eqb c "}" then
        match stack s with
        | FObj mems None :: up => complete (JObj mems) up
        | _ => None
        end
      else if (code c =? 34)%N then goto (stack s) (MString true SPlain [])
      else None
  | MKey =>
      if is_ws c then Some s
      else if (code c =? 34)%N then goto (stack s) (MString true SPlain [])
      else None
  | MColon =>
      if is_ws c then Some s
      else if Ascii.eqb c ":" then goto (stack s) MValue
      else None
  | MString key st acc => step_string (stack s) key st acc c
  | MNumber st a => step_number (stack s) st a c
  | MLiteral rest v =>
      match rest with
      | String c' rest' =>
          if Ascii.eqb c c' then
            match rest' with
            | "" => complete v (stack s)
            | _ => goto (stack s) (MLiteral rest' v)
            end
          else None
      | "" => None
      end
  | MAfter => step_after s c
  end.

Fixpoint run (s : State) (text : string) : option State :=
  match text with
  | "" => Some s
  | String c rest =>
      match step s c with
      | Some s' => run s' rest
      | None => None
      end
  end.

(** At the end of the text nothing may be open; a number that runs up to
    the end is finished there. *)
Definition finish (s : State) : option Json :=
  match stack s, mode s with
  | [], MAfter => result s
  | [], MNumber (NZero | NInt | NFrac | NExpDigits) a => Some (JNum (number_value a))
  | _, _ => None
  end.

(** [JSON.parse(text)]: the value, or a [SyntaxError]. *)
Definition parse (text : string) : Completion Json :=
  match run initial text with
  | Some s =>
      match finish s with
      | Some v => Return v
      | None => Throw SyntaxError
      end
  | None => Throw SyntaxError
  end.

End JSON.

(** ** src/utils.ts *)
Module Utils.
Import Js.

Definition DEFAULT_TOKENLAY_BASE_URL : string := "https://api.tokenlay.com".
Definition DEFAULT_PROVIDER_API_BASE : string := "https://api.openai.com/v1".

Definition header_prefix : string := "x-tokenlay-".

(** [RequestMetadata]: a key is bound to a string or to [undefined]
    ([Some None]); a key that was never written is unbound. *)
Abbreviation RequestMetadata := (gmap string (option string)).
Abbreviation Headers := (gmap string string).

(** The loop body of [metadataToHeaders]. *)
Definition metadata_entry (key : string) (value : option string)
    (headers : Headers) : Headers :=
  match value with
  | Some v => <[header_prefix +:+ key := v]> headers
  | None => headers
  end.

(** [for (const [key, value] of Object.entries(metadata))]: the entries
    have pairwise distinct keys, hence write pairwise distinct headers. *)
Definition metadataToHeaders (metadata : RequestMetadata) : Headers :=
  map_fold metadata_entry ∅ metadata.

(** [Object.assign(merged, headers)] for each argument that is not
    [undefined], left to right. *)
Definition mergeHeaders (headerObjects : list (option Headers)) : Headers :=
  foldl (fun merged headers =>
           match headers with
           | Some h => Object_assign merged h
           | None => merged
           end) ∅ headerObjects.

Record Credentials : Type := {
  cred_tokenlayKey : option string;
  cred_providerApiKey : option string;
}.

Definition tokenlayKey_required : string :=
  "tokenlayKey is required. Get your free key at https://tokenlay.com".
Definition providerApiKey_required : string :=
  "providerApiKey is required. This should be your OpenAI API key or other provider key.".

Definition validateConfig (config : Credentials) : Completion unit :=
  if negb (truthy_string (cred_tokenlayKey config)) then
    Throw (Error tokenlayKey_required)
  else if negb (truthy_string (cred_providerApiKey config)) then
    Throw (Error providerApiKey_required)
  else Return tt.

Definition buildTokenlayUrl (baseUrl endpoint : string) : string :=
  let cleanBase := strip_trailing_slash baseUrl in
  let cleanEndpoint := strip_leading_slash endpoint in
  cleanBase +:+ "/v1/" +:+ cleanEndpoint.

(** A property value of the object that [parseTokenlayHeaders] builds. *)
Inductive Value : Type :=
| VUndefined
| VString (s : string)
| VBoolean (b : bool)
| VNumber (n : Number)
| VJson (j : JSON.Json).

(** A plain object: its own properties. *)
Abbreviation Object := (gmap string Value).

(** [headers[name]] where the result may be [undefined]. *)
Definition string_or_undefined (v : option string) : Value :=
  match v with
  | Some s => VString s
  | None => VUndefined
  end.

(** The member names of the union type of [ruleAction] in
    [TokenlayResponseMetadata]. *)
Definition rule_actions : list string := ["allow"; "block"; "warn"; "queue"].

(** The members of the interface [TokenlayResponseMetadata]. *)
Definition TokenlayResponseMetadata_keys : gset string :=
  list_to_set
    ["ruleId"; "ruleAction"; "limitExceeded"; "cost"; "tokensUsed";
     "inputTokens"; "outputTokens"; "duration"; "warnings"].

Definition parseTokenlayHeaders (headers : Headers) : Completion Object :=
  let ruleId := string_or_undefined (headers !! "x-tokenlay-rule-id") in
  let ruleAction := VString (or_string (headers !! "x-tokenlay-rule-action") "allow") in
  let limitExceeded :=
    VBoolean (bool_decide (headers !! "x-tokenlay-limit-exceeded" = Some "true")) in
  let cost := VNumber (parseFloat (or_string (headers !! "x-tokenlay-cost") "0")) in
  let tokensUsed := VNumber (parseInt10 (or_string (headers !! "x-tokenlay-tokens-used") "0")) in
  let inputTokens := VNumber (parseInt10 (or_string (headers !! "x-tokenlay-input-tokens") "0")) in
  let outputTokens := VNumber (parseInt10 (or_string (headers !! "x-tokenlay-output-tokens") "0")) in
  let duration := VNumber (parseInt10 (or_string (headers !! "x-tokenlay-duration") "0")) in
  bind (match headers !! "x-tokenlay-warnings" with
        | Some text =>
            if truthy_string (Some text)
            then bind (JSON.parse text) (fun j => Return (VJson j))
            else Return VUndefined
        | None => Return VUndefined
        end)
    (fun warnings =>
       Return (list_to_map
                 [("ruleId", ruleId);
                  ("ruleAction", ruleAction);
                  ("limitExceeded", limitExceeded);
                  ("cost", cost);
                  ("tokensUsed", tokensUsed);
                  ("inputTokens", inputTokens);
                  ("outputTokens", outputTokens);
                  ("duration", duration);
                  ("warnings", warnings)])).

End Utils.

(** ** src/client.ts *)
Module Client.
Import Js Utils.

(** [TokenlayOpenAIOptions] as a caller can pass it: every property may be
    left out. *)
Record TokenlayOpenAIOptions : Type := {
  opt_tokenlayKey : option string;
  opt_providerApiKey : option string;
  opt_providerApiBase : option string;
  opt_tokenlayBaseUrl : option string;
  opt_metadata : option (gmap string string);
  opt_extraHeaders : option (gmap string string);
  opt_timeout : option Number;
  opt_maxRetries : option Number;
}.

(** [this.config] *)
Record Config : Type := {
  tokenlayKey : string;
  providerApiKey : string;
  providerApiBase : string;
  tokenlayBaseUrl : string;
  timeout : Number;
  maxRetries : Number;
  metadata : option (gmap string string);
  extraHeaders : option (gmap string string);
}.

(** The argument of [new OpenAI(...)]. *)
Record OpenAI : Type := {
  apiKey : string;
  baseURL : string;
  oa_timeout : Number;
  oa_maxRetries : Number;
  defaultHeaders : Headers;
}.

Record TokenlayOpenAI : Type := {
  openaiClient : OpenAI;
  config : Config;
}.

(** The wrapped-SDK clients created so far, newest first. *)
Abbreviation World := (list OpenAI).

Definition credentials (options : TokenlayOpenAIOptions) : Credentials :=
  {| cred_tokenlayKey := opt_tokenlayKey options;
     cred_providerApiKey := opt_providerApiKey options |}.

Definition buildDefaultHeaders (cfg : Config) : Headers :=
  let headers : Headers :=
    {[ "x-tokenlay-provider-key" := providerApiKey cfg;
       "x-tokenlay-provider-base" := providerApiBase cfg ]} in
  let headers :=
    match metadata cfg with
    | Some m => Object_assign headers (metadataToHeaders (Some <$> m))
    | None => headers
    end in
  match extraHeaders cfg with
  | Some extra => Object_assign headers extra
  | None => headers
  end.

(** The object assigned to [this.config].  It is built once
    [validateConfig] has returned, when both credentials are non-empty
    strings, so the [default] below is never taken. *)
Definition effective_config (options : TokenlayOpenAIOptions) : Config :=
  {| tokenlayKey := default "" (opt_tokenlayKey options);
     providerApiKey := default "" (opt_providerApiKey options);
     providerApiBase := or_string (opt_providerApiBase options) DEFAULT_PROVIDER_API_BASE;
     tokenlayBaseUrl := or_string (opt_tokenlayBaseUrl options) DEFAULT_TOKENLAY_BASE_URL;
     timeout := or_number (opt_timeout options) (of_N 60000);
     maxRetries := or_number (opt_maxRetries options) (of_N 2);
     metadata := opt_metadata options;
     extraHeaders := opt_extraHeaders options |}.

(** [new OpenAI({...})], pointed at the proxy. *)
Definition new_OpenAI (cfg : Config) : OpenAI :=
  {| apiKey := tokenlayKey cfg;
     baseURL := buildTokenlayUrl (tokenlayBaseUrl cfg) "";
     oa_timeout := timeout cfg;
     oa_maxRetries := maxRetries cfg;
     defaultHeaders := buildDefaultHeaders cfg |}.

(** [new TokenlayOpenAI(options)] *)
Definition constructor (options : TokenlayOpenAIOptions) (w : World)
    : World * Completion TokenlayOpenAI :=
  match validateConfig (credentials options) with
  | Throw e => (w, Throw e)
  | Return _ =>
      let cfg := effective_config options in
      let client := new_OpenAI cfg in
      (client :: w, Return {| openaiClient := client; config := cfg |})
  end.

Definition buildRequestHeaders (md : option RequestMetadata) : Headers :=
  match md with
  | None => ∅
  | Some m => metadataToHeaders m
  end.

(** A settled promise. *)
Inductive Settled (A E : Type) : Type :=
| Fulfilled (a : A)
| Rejected (reason : E).
Arguments Fulfilled {A E} a.
Arguments Rejected {A E} reason.

(** What a [catch] clause can tell about the value it caught. *)
Inductive Reason : Type :=
| ErrorInstance (message : string)   (* [reason instanceof Error] *)
| OtherReason.

(** The object a chat-completion call resolves to: the provider's payload,
    the request identifier the wrapped SDK may have set, and the property
    this SDK adds. *)
Record ChatCompletion (Body : Type) : Type := {
  body : Body;
  _request_id : option string;
  _tokenlay : option Object;
}.
Arguments body {Body} _.
Arguments _request_id {Body} _.
Arguments _tokenlay {Body} _.

(** The proxy's reply to one call: the HTTP response headers and the
    object the wrapped SDK resolves to.  [await] hands over the latter
    only. *)
Record Reply (Body : Type) : Type := {
  reply_headers : Headers;
  reply_value : ChatCompletion Body;
}.
Arguments reply_headers {Body} _.
Arguments reply_value {Body} _.

(** The object literal stored under [_tokenlay]. *)
Definition placeholder_metadata : Object :=
  list_to_map
    [("ruleId", VUndefined);
     ("ruleAction", VString "allow");
     ("limitExceeded", VBoolean false);
     ("cost", VNumber (of_N 0));
     ("tokensUsed", VNumber (of_N 0));
     ("inputTokens", VNumber (of_N 0));
     ("outputTokens", VNumber (of_N 0));
     ("duration", VNumber (of_N 0))].

Section Chat.
(** The provider's request and response payloads, which the SDK passes
    through, and the wrapped client's
    [chat.completions.create(params, {headers})]. *)
Context {Payload Body : Type}.
Variable wrapped_create :
  OpenAI -> Payload -> Headers -> Settled (Reply Body) Reason.

Record TokenlayChatCompletionCreateParams : Type := {
  params_metadata : option RequestMetadata;
  openaiParams : Payload;
}.

(** [client.chat.completions.create(params)] *)
Definition create (self : TokenlayOpenAI)
    (params : TokenlayChatCompletionCreateParams)
    : Settled (ChatCompletion Body) Reason :=
  let requestHeaders := buildRequestHeaders (params_metadata params) in
  match wrapped_create (openaiClient self) (openaiParams params) requestHeaders with
  | Rejected reason => Rejected reason
  | Fulfilled reply =>
      let response := reply_value reply in
      if truthy_string (_request_id response) then
        Fulfilled {| body := body response;
                     _request_id := _request_id response;
                     _tokenlay := Some placeholder_metadata |}
      else Fulfilled response
  end.
End Chat.

(** [response._tokenlay || null]; [None] is [null]. *)
Definition getTokenlayMetadata {Body} (response : ChatCompletion Body)
    : option Object :=
  match _tokenlay response with
  | Some md => Some md
  | None => None
  end.

Definition updateMetadata (self : TokenlayOpenAI) (md : RequestMetadata)
    : TokenlayOpenAI :=
  let filteredMetadata : gmap string string :=
    map_fold (fun key value acc =>
                match value with
                | Some v => set_property acc key v
                | None => acc
                end) ∅ md in
  let cfg := config self in
  {| openaiClient := openaiClient self;
     config :=
       {| tokenlayKey := tokenlayKey cfg;
          providerApiKey := providerApiKey cfg;
          providerApiBase := providerApiBase cfg;
          tokenlayBaseUrl := tokenlayBaseUrl cfg;
          timeout := timeout cfg;
          maxRetries := maxRetries cfg;
          metadata := Some (filteredMetadata ∪ default ∅ (metadata cfg));
          extraHeaders := extraHeaders cfg |} |}.

Definition updateProviderKey (self : TokenlayOpenAI) (key : string)
    : TokenlayOpenAI :=
  let cfg := config self in
  {| openaiClient := openaiClient self;
     config :=
       {| tokenlayKey := tokenlayKey cfg;
          providerApiKey := key;
          providerApiBase := providerApiBase cfg;
          tokenlayBaseUrl := tokenlayBaseUrl cfg;
          timeout := timeout cfg;
          maxRetries := maxRetries cfg;
          metadata := metadata cfg;
          extraHeaders := extraHeaders cfg |} |}.

(** *** healthCheck *)

(** The call [fetch(url, {headers})]; the method is GET. *)
Record Request : Type := {
  url : string;
  request_headers : Headers;
}.

Record Response : Type := {
  status : N;
  statusText : string;
}.

(** [response.ok]: the status is in the range 200 to 299. *)
Definition ok (r : Response) : bool :=
  (200 <=? status r)%N && (status r <=? 299)%N.

Inductive HealthStatus : Type := StatusOk | StatusError.

Record Health : Type := {
  health_status : HealthStatus;
  health_message : option string;
}.

Definition healthCheck_request (self : TokenlayOpenAI) : Request :=
  {| url := buildTokenlayUrl (tokenlayBaseUrl (config self)) "health";
     request_headers :=
       {[ "Authorization" := "Bearer " +:+ tokenlayKey (config self) ]} |}.

Definition healthCheck (fetch : Request -> Settled Response Reason)
    (self : TokenlayOpenAI) : Settled Health Reason :=
  match fetch (healthCheck_request self) with
  | Fulfilled response =>
      if ok response then
        Fulfilled {| health_status := StatusOk; health_message := None |}
      else
        Fulfilled {| health_status := StatusError;
                     health_message :=
                       Some ("HTTP " +:+ pretty (status response) +:+ ": "
                             +:+ statusText response) |}
  | Rejected (ErrorInstance message) =>
      Fulfilled {| health_status := StatusError; health_message := Some message |}
  | Rejected OtherReason =>
      Fulfilled {| health_status := StatusError;
                   health_message := Some "Unknown error" |}
  end.

End Client.

Import Js Utils Client.

(** ** Test data and vocabulary of the statements *)

(** The warnings header is absent, empty, or holds a JSON text. *)
Definition warnings_decodable (headers : Headers) : bool :=
  match headers !! "x-tokenlay-warnings" with
  | Some text =>
      if truthy_string (Some text)
      then match JSON.parse text with Return _ => true | Throw _ => false end
      else true
  | None => true
  end.

(** ASCII lower case, to compare names up to case. *)
Definition lower_char (c : ascii) : ascii :=
  let n := code c in
  if (65 <=? n)%N && (n <=? 90)%N then ascii_of_N (n + 32) else c.

Fixpoint lower (s : string) : string :=
  match s with
  | "" => ""
  | String c rest => String (lower_char c) (lower rest)
  end.

Definition sample_metadata : RequestMetadata := {[ "userId" := Some "user_123" ]}.

(** The client of the integration script: local proxy, test keys. *)
Definition test_options : TokenlayOpenAIOptions :=
  {| opt_tokenlayKey := Some "tk_test_123";
     opt_providerApiKey := Some "sk-test-456";
     opt_providerApiBase := None;
     opt_tokenlayBaseUrl := Some "http://localhost:3000";
     opt_metadata := None;
     opt_extraHeaders := None;
     opt_timeout := None;
     opt_maxRetries := None |}.

Definition test_config : Config :=
  {| tokenlayKey := "tk_test_123";
     providerApiKey := "sk-test-456";
     providerApiBase := DEFAULT_PROVIDER_API_BASE;
     tokenlayBaseUrl := "http://localhost:3000";
     timeout := of_N 60000;
     maxRetries := of_N 2;
     metadata := None;
     extraHeaders := None |}.

Definition test_client : TokenlayOpenAI :=
  {| openaiClient :=
       {| apiKey := "tk_test_123";
          baseURL := "http://localhost:3000/v1/";
          oa_timeout := of_N 60000;
          oa_maxRetries := of_N 2;
          defaultHeaders := buildDefaultHeaders test_config |};
     config := test_config |}.

Definition without_keys : TokenlayOpenAIOptions :=
  {| opt_tokenlayKey := None;
     opt_providerApiKey := None;
     opt_providerApiBase := None;
     opt_tokenlayBaseUrl := None;
     opt_metadata := None;
     opt_extraHeaders := None;
     opt_timeout := None;
     opt_maxRetries := None |}.

Definition with_tokenlayKey (key : string) (o : TokenlayOpenAIOptions)
    : TokenlayOpenAIOptions :=
  {| opt_tokenlayKey := Some key;
     opt_providerApiKey := opt_providerApiKey o;
     opt_providerApiBase := opt_providerApiBase o;
     opt_tokenlayBaseUrl := opt_tokenlayBaseUrl o;
     opt_metadata := opt_metadata o;
     opt_extraHeaders := opt_extraHeaders o;
     opt_timeout := opt_timeout o;
     opt_maxRetries := opt_maxRetries o |}.

Definition with_timeout (t : option Number) (o : TokenlayOpenAIOptions)
    : TokenlayOpenAIOptions :=
  {| opt_tokenlayKey := opt_tokenlayKey o;
     opt_providerApiKey := opt_providerApiKey o;
     opt_providerApiBase := opt_providerApiBase o;
     opt_tokenlayBaseUrl := opt_tokenlayBaseUrl o;
     opt_metadata := opt_metadata o;
     opt_extraHeaders := opt_extraHeaders o;
     opt_timeout := t;
     opt_maxRetries := opt_maxRetries o |}.

Definition with_maxRetries (n : option Number) (o : TokenlayOpenAIOptions)
    : TokenlayOpenAIOptions :=
  {| opt_tokenlayKey := opt_tokenlayKey o;
     opt_providerApiKey := opt_providerApiKey o;
     opt_providerApiBase := opt_providerApiBase o;
     opt_tokenlayBaseUrl := opt_tokenlayBaseUrl o;
     opt_metadata := opt_metadata o;
     opt_extraHeaders := opt_extraHeaders o;
     opt_timeout := opt_timeout o;
     opt_maxRetries := n |}.

Definition zero_options : TokenlayOpenAIOptions :=
  with_timeout (Some (of_N 0)) (with_maxRetries (Some (of_N 0)) test_options).

Definition status_2xx (r : Response) : Prop := (200 ≤ status r ≤ 299)%N.




(** The reply of the unit test for [create], with the headers the proxy
    would send for the values that test expects. *)
Definition failing_reply : Reply unit :=
  {| reply_headers :=
       {[ "x-tokenlay-rule-id" := "test-rule";
          "x-tokenlay-rule-action" := "allow";
          "x-tokenlay-cost" := "0.00018";
          "x-tokenlay-tokens-used" := "18" ]};
     reply_value :=
       {| body := tt; _request_id := Some "req_test_123"; _tokenlay := None |} |}.

Definition plain_params : TokenlayChatCompletionCreateParams (Payload := unit) :=
  {| params_metadata := None; openaiParams := tt |}.

(** The header names that [parseTokenlayHeaders] reads. *)
Definition tokenlay_response_headers : list string :=
  ["x-tokenlay-rule-id"; "x-tokenlay-rule-action"; "x-tokenlay-limit-exceeded";
   "x-tokenlay-cost"; "x-tokenlay-tokens-used"; "x-tokenlay-input-tokens";
   "x-tokenlay-output-tokens"; "x-tokenlay-duration"; "x-tokenlay-warnings"].

(** The numeric headers with the member each one fills and the parser
    applied to it. *)
Definition numeric_fields : list (string * string * (string → Number)) :=
  [("x-tokenlay-cost", "cost", parseFloat);
   ("x-tokenlay-tokens-used", "tokensUsed", parseInt10);
   ("x-tokenlay-input-tokens", "inputTokens", parseInt10);
   ("x-tokenlay-output-tokens", "outputTokens", parseInt10);
   ("x-tokenlay-duration", "duration", parseInt10)].

(** A client whose global metadata uses the key "provider-key". *)
Definition metadata_override_client : TokenlayOpenAI :=
  let cfg :=
    {| tokenlayKey := "tk_test_123";
       providerApiKey := "sk-test-456";
       providerApiBase := DEFAULT_PROVIDER_API_BASE;
       tokenlayBaseUrl := DEFAULT_TOKENLAY_BASE_URL;
       timeout := of_N 60000;
       maxRetries := of_N 2;
       metadata := Some {[ "provider-key" := "from-metadata" ]};
       extraHeaders := None |} in
  {| openaiClient := new_OpenAI cfg; config := cfg |}.

(** The integers up to 2^53, which a Number holds exactly. *)
Definition exact_integer (n : N) : Prop := (n ≤ 9007199254740992)%N.

(** The JSON values that the embedding represents as the code holds them:
    null, booleans, strings, integers written without fraction or exponent
    and of magnitude up to 2^53, and arrays of such values. *)
Fixpoint exact_json (j : JSON.Json) : bool :=
  match j with
  | JSON.JNull | JSON.JBool _ | JSON.JStr _ => true
  | JSON.JNum (Dec _ m 0) => (m <=? 9007199254740992)%N
  | JSON.JNum _ => false
  | JSON.JArr elements => forallb exact_json elements
  | JSON.JObj _ => false
  end.

(** The headers of a call, written out: one header "x-tokenlay-<key>" per
    metadata entry with a defined value. *)
Definition expected_call_headers (md : option RequestMetadata) : Headers :=
  kmap (String.append "x-tokenlay-") (omap id (default ∅ md)).

(** A call with per-call metadata, one entry of which is [undefined]. *)
Definition metadata_params : TokenlayChatCompletionCreateParams (Payload := unit) :=
  {| params_metadata := Some {[ "userId" := Some "user_123"; "tier" := None ]};
     openaiParams := tt |}.

(** A wrapped client that rejects the call carrying exactly the header
    x-tokenlay-userId: user_123 and resolves every other call. *)
Definition rejects_user_123
    : OpenAI → unit → Headers → Settled (Reply unit) Reason :=
  λ _ _ h,
    if decide (h = {[ "x-tokenlay-userId" := "user_123" ]})
    then Rejected (ErrorInstance "401")
    else Fulfilled failing_reply.

(** ** Properties of the URL builder *)

Lemma strip_trailing_slash_snoc (s : string) :
  strip_trailing_slash (s +:+ "/") = s.
Proof.
  induction s as [|c s IH]; [reflexivity|].
  change (String c s +:+ "/") with (String c (s +:+ "/")).
  cbn [strip_trailing_slash]. rewrite IH.
  destruct s; reflexivity.
Qed.

Lemma last_char_snoc (s : string) (c : ascii) :
  last_char (s +:+ String c "") = Some c.
Proof.
  induction s as [|a s IH]; [reflexivity|].
  change (String a s +:+ String c "") with (String a (s +:+ String c "")).
  cbn [last_char]. rewrite IH. by destruct s.
Qed.

(** [ends_with_slash] holds of the strings that are some text followed by
    a slash, and of no other. *)
Lemma ends_with_slash_spec (s : string) :
  ends_with_slash s = true ↔ ∃ t, s = t +:+ "/".
Proof.
  unfold ends_with_slash. split.
  - induction s as [|a s IH]; [done|].
    cbn [last_char]. destruct s as [|b s'].
    + intros ->%Ascii.eqb_eq. by exists "".
    + intros H. destruct (IH H) as [t ->]. by exists (String a t).
  - intros [t ->]. by rewrite last_char_snoc.
Qed.

Lemma strip_trailing_slash_id (s : string) :
  ends_with_slash s = false -> strip_trailing_slash s = s.
Proof.
  unfold ends_with_slash.
  induction s as [|a s IH]; [done|].
  cbn [last_char strip_trailing_slash]. destruct s as [|b s'].
  - by intros ->.
  - intros H. by rewrite (IH H).
Qed.

Lemma strip_leading_slash_cons (s : string) :
  strip_leading_slash ("/" +:+ s) = s.
Proof. reflexivity. Qed.

Lemma strip_leading_slash_id (s : string) :
  starts_with_slash s = false -> strip_leading_slash s = s.
Proof. destruct s as [|c s]; [done|]. cbn. by intros ->. Qed.

(** C8: for a base whose last character is not a slash and an endpoint
    whose first character is not a slash, the four ways of writing the pair
    (base with or without one trailing slash, endpoint with or without one
    leading slash) all build the base, then "/v1/", then the endpoint. *)
Theorem buildTokenlayUrl_slash_invariant (b e : string) :
  ends_with_slash b = false ->
  starts_with_slash e = false ->
  buildTokenlayUrl b e = b +:+ "/v1/" +:+ e /\
  buildTokenlayUrl (b +:+ "/") e = b +:+ "/v1/" +:+ e /\
  buildTokenlayUrl b ("/" +:+ e) = b +:+ "/v1/" +:+ e /\
  buildTokenlayUrl (b +:+ "/") ("/" +:+ e) = b +:+ "/v1/" +:+ e.
Proof.
  intros Hb He. unfold buildTokenlayUrl.
  rewrite !strip_trailing_slash_snoc, !strip_leading_slash_cons.
  rewrite (strip_trailing_slash_id b Hb), (strip_leading_slash_id e He).
  done.
Qed.

Lemma buildTokenlayUrl_slash_invariant_witness :
  buildTokenlayUrl "https://h" "p" = "https://h/v1/p" /\
  buildTokenlayUrl "https://h/" "p" = "https://h/v1/p" /\
  buildTokenlayUrl "https://h" "/p" = "https://h/v1/p" /\
  buildTokenlayUrl "https://h/" "/p" = "https://h/v1/p".
Proof.
  apply (buildTokenlayUrl_slash_invariant "https://h" "p"); reflexivity.
Defined.

(** ** Properties of the header encoding *)

Lemma metadataToHeaders_spec (m : RequestMetadata) :
  (∀ k, metadataToHeaders m !! (header_prefix +:+ k) = m !! k ≫= id) ∧
  (∀ h, is_Some (metadataToHeaders m !! h) → ∃ k, h = header_prefix +:+ k).
Proof.
  unfold metadataToHeaders.
  apply (map_fold_weak_ind
           (λ (r : Headers) (m : RequestMetadata),
              (∀ k, r !! (header_prefix +:+ k) = m !! k ≫= id) ∧
              (∀ h, is_Some (r !! h) → ∃ k, h = header_prefix +:+ k))).
  - split; [intros k; by rewrite !lookup_empty|].
    intros h [v Hv]. by rewrite lookup_empty in Hv.
  - intros i x m' r Hi [IH1 IH2]. split.
    + intros k. destruct (decide (i = k)) as [->|Hne].
      * rewrite lookup_insert_eq. destruct x as [v|]; cbn.
        -- by rewrite lookup_insert_eq.
        -- by rewrite IH1, Hi.
      * rewrite (lookup_insert_ne m') by done.
        destruct x as [v|]; cbn; [|done].
        rewrite lookup_insert_ne; [done|].
        intros Heq. by apply (inj (String.append header_prefix)) in Heq.
    + intros h Hh. destruct x as [v|]; cbn in Hh; [|by apply IH2].
      destruct (decide (header_prefix +:+ i = h)) as [<-|Hne]; [by exists i|].
      rewrite lookup_insert_ne in Hh by done. by apply IH2.
Qed.

Lemma metadataToHeaders_lookup (m : RequestMetadata) (k : string) :
  metadataToHeaders m !! (header_prefix +:+ k) = m !! k ≫= id.
Proof. apply metadataToHeaders_spec. Qed.

Lemma metadataToHeaders_dom (m : RequestMetadata) :
  dom (metadataToHeaders m)
  = set_map (String.append header_prefix) (dom (omap id m : gmap string string)).
Proof.
  apply set_eq. intros h. rewrite elem_of_dom, elem_of_map. split.
  - intros Hh. destruct (proj2 (metadataToHeaders_spec m) h Hh) as [k ->].
    exists k. split; [done|]. apply elem_of_dom.
    rewrite lookup_omap. by rewrite metadataToHeaders_lookup in Hh.
  - intros (k & -> & Hk). apply elem_of_dom in Hk.
    rewrite lookup_omap in Hk. by rewrite metadataToHeaders_lookup.
Qed.

Lemma metadataToHeaders_kmap (m : RequestMetadata) :
  metadataToHeaders m = kmap (String.append header_prefix) (omap id m).
Proof.
  apply map_eq. intros h. apply option_eq. intros v.
  rewrite lookup_kmap_Some by apply _. split.
  - intros Hv. destruct (proj2 (metadataToHeaders_spec m) h) as [k ->]; [by eexists|].
    exists k. split; [done|].
    rewrite lookup_omap. by rewrite metadataToHeaders_lookup in Hv.
  - intros (k & -> & Hk). rewrite lookup_omap in Hk.
    by rewrite metadataToHeaders_lookup.
Qed.

Lemma size_kmap_prefix (m : gmap string string) :
  size (kmap (M2 := gmap string) (String.append header_prefix) m) = size m.
Proof.
  rewrite <-!length_map_to_list.
  rewrite (map_to_list_kmap (String.append header_prefix) m).
  by rewrite length_fmap.
Qed.

(** C9: the encoding binds the header "x-tokenlay-<key>" to the unchanged
    value of every key whose value is defined and binds nothing for a key
    whose value is absent; the headers are exactly the defined entries under
    their prefixed names, one each, and the empty map encodes to the empty
    map. *)
Theorem metadataToHeaders_exact (m : RequestMetadata) :
  (∀ k, metadataToHeaders m !! (header_prefix +:+ k) = m !! k ≫= id) ∧
  metadataToHeaders m = kmap (String.append header_prefix) (omap id m) ∧
  dom (metadataToHeaders m)
  = set_map (String.append header_prefix) (dom (omap id m : gmap string string)) ∧
  size (metadataToHeaders m) = size (omap id m : gmap string string) ∧
  metadataToHeaders ∅ = ∅.
Proof.
  split; [apply metadataToHeaders_lookup|].
  split; [apply metadataToHeaders_kmap|].
  split; [apply metadataToHeaders_dom|].
  split; [|reflexivity].
  rewrite metadataToHeaders_kmap. apply size_kmap_prefix.
Qed.

(** [encode({a:"1", b:undefined})] is [{"x-tokenlay-a":"1"}]. *)
Example metadataToHeaders_skips_undefined :
  metadataToHeaders {[ "a" := Some "1"; "b" := None ]} = {[ "x-tokenlay-a" := "1" ]}.
Proof. apply map_eq. intros k. vm_compute. reflexivity. Qed.

(** ** Properties of the header decoding *)

Lemma JSON_parse_throws (text : string) (e : Exception) :
  JSON.parse text = Throw e → e = SyntaxError.
Proof.
  unfold JSON.parse.
  destruct (JSON.run JSON.initial text) as [s|]; [|congruence].
  destruct (JSON.finish s); congruence.
Qed.

Lemma truthy_string_Some (text : string) :
  truthy_string (Some text) = true ↔ text ≠ "".
Proof. destruct text; cbn; split; congruence. Qed.

(** The decoder returns or throws, depending on the warnings header only;
    what it returns has the nine members of the response interface. *)
Lemma parseTokenlayHeaders_cases (headers : Headers) :
  match parseTokenlayHeaders headers with
  | Return r =>
      warnings_decodable headers = true ∧
      dom r = TokenlayResponseMetadata_keys ∧
      r !! "ruleId" = Some (string_or_undefined (headers !! "x-tokenlay-rule-id")) ∧
      r !! "ruleAction"
      = Some (VString (or_string (headers !! "x-tokenlay-rule-action") "allow")) ∧
      (truthy_string (headers !! "x-tokenlay-warnings") = false →
       r !! "warnings" = Some VUndefined)
  | Throw e =>
      e = SyntaxError ∧
      ∃ text, headers !! "x-tokenlay-warnings" = Some text ∧ text ≠ "" ∧
              JSON.parse text = Throw SyntaxError
  end.
Proof.
  unfold parseTokenlayHeaders, warnings_decodable.
  destruct (headers !! "x-tokenlay-warnings") as [text|] eqn:Hw.
  - destruct (truthy_string (Some text)) eqn:Ht.
    + destruct (JSON.parse text) as [j|e] eqn:Hp; cbn.
      * repeat split; try reflexivity. discriminate.
      * pose proof (JSON_parse_throws _ _ Hp) as ->.
        split; [done|]. exists text. by rewrite <-truthy_string_Some.
    + cbn. repeat split; reflexivity.
  - cbn. repeat split; reflexivity.
Qed.

Lemma parseTokenlayHeaders_returns (headers : Headers) :
  warnings_decodable headers = true →
  ∃ r, parseTokenlayHeaders headers = Return r.
Proof.
  intros Hok. pose proof (parseTokenlayHeaders_cases headers) as H.
  destruct (parseTokenlayHeaders headers) as [r|e]; [by exists r|].
  destruct H as (_ & text & Hw & Hne & Hp).
  unfold warnings_decodable in Hok. rewrite Hw, Hp in Hok.
  apply truthy_string_Some in Hne. by rewrite Hne in Hok.
Qed.

Lemma or_string_cases (v : option string) (d : string) :
  (v = None ∧ or_string v d = d) ∨
  (v = Some "" ∧ or_string v d = d) ∨
  (∃ s, v = Some s ∧ s ≠ "" ∧ or_string v d = s).
Proof.
  destruct v as [[|c s]|]; cbn; [right; left|right; right|left]; try done.
  by exists (String c s).
Qed.

(** C1, as stated, fails: the metadata map [{userId: "user_123"}] has only
    defined values, its encoding decodes to a record, and that record's keys
    are not the key of the map, with or without regard to case. *)
Lemma decode_encode_key_set_counterexample :
  (∀ k v, sample_metadata !! k = Some v → is_Some v) ∧
  ∃ r, parseTokenlayHeaders (metadataToHeaders sample_metadata) = Return r ∧
       dom r ≠ dom sample_metadata ∧
       set_map lower (dom r) ≠@{gset string} set_map lower (dom sample_metadata).
Proof.
  split.
  - intros k v Hk. unfold sample_metadata in Hk.
    apply lookup_singleton_Some in Hk as [_ <-]. by eexists.
  - eexists. split; [reflexivity|].
    split; intros Heq.
    + apply (f_equal (λ X : gset string, bool_decide ("cost" ∈ X))) in Heq.
      vm_compute in Heq. discriminate.
    + apply (f_equal (λ X : gset string, bool_decide ("cost" ∈ X))) in Heq.
      vm_compute in Heq. discriminate.
Qed.

(** C1, amended: decoding the encoding of any metadata map either returns a
    record whose keys are the nine members of the response interface,
    whatever the keys of the map, with the rule identifier and the rule
    action read from the map's keys "rule-id" and "rule-action"; or it fails
    with a parse error, which happens only when the map binds "warnings" to
    a non-empty text that is not JSON. *)
Theorem decode_encode_fixed_keys (m : RequestMetadata) :
  match parseTokenlayHeaders (metadataToHeaders m) with
  | Return r =>
      dom r = TokenlayResponseMetadata_keys ∧
      r !! "ruleId" = Some (string_or_undefined (m !! "rule-id" ≫= id)) ∧
      r !! "ruleAction" = Some (VString (or_string (m !! "rule-action" ≫= id) "allow"))
  | Throw e =>
      e = SyntaxError ∧
      ∃ text, m !! "warnings" = Some (Some text) ∧ text ≠ "" ∧
              JSON.parse text = Throw SyntaxError
  end.
Proof.
  pose proof (parseTokenlayHeaders_cases (metadataToHeaders m)) as H.
  destruct (parseTokenlayHeaders (metadataToHeaders m)) as [r|e].
  - destruct H as (_ & Hdom & Hid & Hact & _).
    change "x-tokenlay-rule-id" with (header_prefix +:+ "rule-id") in Hid.
    change "x-tokenlay-rule-action" with (header_prefix +:+ "rule-action") in Hact.
    rewrite metadataToHeaders_lookup in Hid, Hact. done.
  - destruct H as (-> & text & Hw & Hne & Hp). split; [done|].
    exists text. split; [|done].
    change "x-tokenlay-warnings" with (header_prefix +:+ "warnings") in Hw.
    rewrite metadataToHeaders_lookup in Hw.
    destruct (m !! "warnings") as [[t|]|]; cbn in Hw; congruence.
Qed.

(** C4, as stated, fails: a header map whose rule-action header reads
    "deny" decodes to a record whose [ruleAction] is "deny". *)
Lemma parseTokenlayHeaders_ruleAction_counterexample :
  ∃ r, parseTokenlayHeaders {[ "x-tokenlay-rule-action" := "deny" ]} = Return r ∧
       r !! "ruleAction" = Some (VString "deny") ∧
       "deny" ∉ rule_actions.
Proof.
  eexists. split; [reflexivity|]. split; [reflexivity|].
  intros Hin%(bool_decide_pack _). vm_compute in Hin. done.
Qed.

(** C4, amended: when the decoder returns (the warnings header is absent,
    empty or JSON), [ruleAction] is "allow" if the rule-action header is
    absent or empty and is the header's value otherwise; hence it is one of
    allow, block, warn, queue exactly when the header is absent, empty, or
    itself one of the four. *)
Theorem parseTokenlayHeaders_ruleAction (headers : Headers) :
  warnings_decodable headers = true →
  ∃ r a,
    parseTokenlayHeaders headers = Return r ∧
    r !! "ruleAction" = Some (VString a) ∧
    (headers !! "x-tokenlay-rule-action" = None → a = "allow") ∧
    (headers !! "x-tokenlay-rule-action" = Some "" → a = "allow") ∧
    (∀ v, headers !! "x-tokenlay-rule-action" = Some v → v ≠ "" → a = v) ∧
    (a ∈ rule_actions ↔
       headers !! "x-tokenlay-rule-action" = None ∨
       headers !! "x-tokenlay-rule-action" = Some "" ∨
       ∃ v, headers !! "x-tokenlay-rule-action" = Some v ∧ v ∈ rule_actions).
Proof.
  intros Hok. destruct (parseTokenlayHeaders_returns headers Hok) as [r Hr].
  pose proof (parseTokenlayHeaders_cases headers) as H. rewrite Hr in H.
  destruct H as (_ & _ & _ & Hact & _).
  exists r, (or_string (headers !! "x-tokenlay-rule-action") "allow").
  split; [done|]. split; [done|].
  destruct (or_string_cases (headers !! "x-tokenlay-rule-action") "allow")
    as [[Hv ->]|[[Hv ->]|(s & Hv & Hne & ->)]]; rewrite Hv.
  - repeat split; try done.
    + intros _. by left.
    + intros _. by apply (bool_decide_unpack _).
  - repeat split; try done.
    + intros v [= <-] Hv'. done.
    + intros _. right; by left.
    + intros _. by apply (bool_decide_unpack _).
  - repeat split; try done.
    + intros [= ->]. done.
    + intros v [= <-] _. done.
    + intros Hin. right; right. by exists s.
    + intros [?|[[= ->]|(v & [= <-] & Hin)]]; done.
Qed.

Lemma parseTokenlayHeaders_ruleAction_witness :
  warnings_decodable {[ "x-tokenlay-rule-action" := "block" ]} = true ∧
  ∃ r a,
    parseTokenlayHeaders {[ "x-tokenlay-rule-action" := "block" ]} = Return r ∧
    r !! "ruleAction" = Some (VString a) ∧ a = "block".
Proof.
  assert (warnings_decodable {[ "x-tokenlay-rule-action" := "block" ]} = true)
    as Hok by reflexivity.
  split; [exact Hok|].
  destruct (parseTokenlayHeaders_ruleAction _ Hok)
    as (r & a & Hr & Ha & _ & _ & Hv & _).
  exists r, a. split; [exact Hr|]. split; [exact Ha|].
  apply Hv; [reflexivity|discriminate].
Defined.

(** C6, as stated, fails: the empty text is not JSON, yet a header map whose
    warnings header is present and empty decodes to a record whose
    [warnings] is undefined. *)
Lemma parseTokenlayHeaders_warnings_counterexample :
  JSON.parse "" = Throw SyntaxError ∧
  ∃ r, parseTokenlayHeaders {[ "x-tokenlay-warnings" := "" ]} = Return r ∧
       r !! "warnings" = Some VUndefined.
Proof. split; [reflexivity|]. eexists. split; reflexivity. Qed.

(** C6, amended: when the warnings header is present, not empty, and its
    value is not JSON, the decoder fails with the parse error. *)
Theorem parseTokenlayHeaders_warnings_throws (headers : Headers) (text : string) :
  headers !! "x-tokenlay-warnings" = Some text →
  text ≠ "" →
  JSON.parse text = Throw SyntaxError →
  parseTokenlayHeaders headers = Throw SyntaxError.
Proof.
  intros Hw Hne Hp. unfold parseTokenlayHeaders. rewrite Hw.
  apply truthy_string_Some in Hne. rewrite Hne, Hp. reflexivity.
Qed.

Lemma parseTokenlayHeaders_warnings_throws_witness :
  parseTokenlayHeaders {[ "x-tokenlay-warnings" := "not-json" ]} = Throw SyntaxError.
Proof.
  apply (parseTokenlayHeaders_warnings_throws _ "not-json");
    [reflexivity|discriminate|reflexivity].
Defined.

(** ** Properties of the client *)

Example constructor_test_client :
  constructor test_options [] = ([openaiClient test_client], Return test_client).
Proof. reflexivity. Qed.

Lemma truthy_string_false (v : option string) :
  truthy_string v = false ↔ v = None ∨ v = Some "".
Proof.
  destruct v as [[|c s]|]; cbn; split; try done; auto.
  intros [?|?]; done.
Qed.

(** C7: a missing or empty [tokenlayKey] makes [validateConfig] fail with
    the error that names [tokenlayKey], whatever [providerApiKey] is; with a
    non-empty [tokenlayKey], a missing or empty [providerApiKey] makes it
    fail with the error that names [providerApiKey]; in both cases the
    constructor fails with the same error and creates no wrapped client. *)
Theorem validateConfig_reports_missing (options : TokenlayOpenAIOptions) (w : World) :
  (opt_tokenlayKey options = None ∨ opt_tokenlayKey options = Some "" →
   validateConfig (credentials options) = Throw (Error tokenlayKey_required) ∧
   constructor options w = (w, Throw (Error tokenlayKey_required))) ∧
  (∀ key, opt_tokenlayKey options = Some key → key ≠ "" →
   opt_providerApiKey options = None ∨ opt_providerApiKey options = Some "" →
   validateConfig (credentials options) = Throw (Error providerApiKey_required) ∧
   constructor options w = (w, Throw (Error providerApiKey_required))) ∧
  String.prefix "tokenlayKey" tokenlayKey_required = true ∧
  String.prefix "providerApiKey" providerApiKey_required = true.
Proof.
  split; [|split; [|split; reflexivity]].
  - intros Hk%truthy_string_false.
    assert (validateConfig (credentials options) = Throw (Error tokenlayKey_required)) as Hv.
    { unfold validateConfig; cbn. by rewrite Hk. }
    split; [done|]. unfold constructor. by rewrite Hv.
  - intros key Hk Hne Hp%truthy_string_false.
    assert (validateConfig (credentials options) = Throw (Error providerApiKey_required)) as Hv.
    { unfold validateConfig; cbn. rewrite Hk, Hp.
      apply truthy_string_Some in Hne. by rewrite Hne. }
    split; [done|]. unfold constructor. by rewrite Hv.
Qed.

Lemma validateConfig_reports_missing_witness :
  (validateConfig (credentials without_keys) = Throw (Error tokenlayKey_required) ∧
   constructor without_keys [] = ([], Throw (Error tokenlayKey_required))) ∧
  (validateConfig (credentials (with_tokenlayKey "x" without_keys))
   = Throw (Error providerApiKey_required) ∧
   constructor (with_tokenlayKey "x" without_keys) []
   = ([], Throw (Error providerApiKey_required))).
Proof.
  split.
  - apply (validateConfig_reports_missing without_keys []). left. reflexivity.
  - apply (validateConfig_reports_missing (with_tokenlayKey "x" without_keys) [])
      with (key := "x"); [reflexivity|discriminate|left; reflexivity].
Defined.

Lemma or_number_falsy (v : option Number) (d : Number) :
  truthy_number v = false → or_number v d = d.
Proof. destruct v as [n|]; cbn; [|done]. by intros ->. Qed.

(** C10: when the credentials are accepted, construction succeeds and
    creates one wrapped client; an explicit [timeout] that is falsy (0, -0
    or NaN) leaves the effective timeout at 60000 and an explicit falsy
    [maxRetries] leaves the retry count at 2, in the stored configuration
    and in the wrapped client, exactly as when the option is left out. *)
Theorem constructor_falsy_defaults (options : TokenlayOpenAIOptions) (w : World) :
  validateConfig (credentials options) = Return tt →
  ∃ self,
    constructor options w = (openaiClient self :: w, Return self) ∧
    (truthy_number (opt_timeout options) = false →
     timeout (config self) = of_N 60000 ∧
     oa_timeout (openaiClient self) = of_N 60000 ∧
     constructor options w = constructor (with_timeout None options) w) ∧
    (truthy_number (opt_maxRetries options) = false →
     maxRetries (config self) = of_N 2 ∧
     oa_maxRetries (openaiClient self) = of_N 2 ∧
     constructor options w = constructor (with_maxRetries None options) w).
Proof.
  intros Hv.
  exists {| openaiClient := new_OpenAI (effective_config options);
            config := effective_config options |}.
  split; [unfold constructor; by rewrite Hv|]. cbn. split.
  - intros Hf. rewrite (or_number_falsy _ _ Hf). split; [done|]. split; [done|].
    unfold constructor.
    change (credentials (with_timeout None options)) with (credentials options).
    rewrite Hv. unfold effective_config; cbn.
    by rewrite (or_number_falsy _ _ Hf).
  - intros Hf. rewrite (or_number_falsy _ _ Hf). split; [done|]. split; [done|].
    unfold constructor.
    change (credentials (with_maxRetries None options)) with (credentials options).
    rewrite Hv. unfold effective_config; cbn.
    by rewrite (or_number_falsy _ _ Hf).
Qed.

Lemma constructor_falsy_defaults_witness :
  ∃ self,
    constructor zero_options [] = ([openaiClient self], Return self) ∧
    timeout (config self) = of_N 60000 ∧
    maxRetries (config self) = of_N 2.
Proof.
  destruct (constructor_falsy_defaults zero_options [] eq_refl)
    as (self & Hc & Ht & Hr).
  exists self. split; [exact Hc|].
  split; [apply Ht; reflexivity|apply Hr; reflexivity].
Defined.

Lemma ok_2xx (r : Response) : ok r = true ↔ status_2xx r.
Proof.
  unfold ok, status_2xx. rewrite andb_true_iff, !N.leb_le. done.
Qed.



Lemma string_length_app (s t : string) :
  String.length (s +:+ t) = String.length s + String.length t.
Proof.
  induction s as [|c s IH]; [reflexivity|].
  change (String c s +:+ t) with (String c (s +:+ t)).
  cbn [String.length]. rewrite IH. reflexivity.
Qed.

Lemma strip_trailing_slash_length (s : string) :
  (String.length s ≤ S (String.length (strip_trailing_slash s)))%nat.
Proof.
  induction s as [|c s IH]; cbn; [lia|].
  destruct s as [|c' s']; [destruct (Ascii.eqb c "/"); cbn; lia|].
  cbn [String.length] in *. lia.
Qed.

(** C3: the health check asks for the proxy base URL, without its trailing
    slash, followed by "/v1/health", with the bearer header; that is never
    the base URL followed by "/health".  For the local proxy of the
    integration script the request goes to
    "http://localhost:3000/v1/health". *)
Theorem healthCheck_requests_v1_health :
  (∀ self,
     url (healthCheck_request self)
     = strip_trailing_slash (tokenlayBaseUrl (config self)) +:+ "/v1/health" ∧
     request_headers (healthCheck_request self)
     = {[ "Authorization" := "Bearer " +:+ tokenlayKey (config self) ]} ∧
     url (healthCheck_request self) ≠ tokenlayBaseUrl (config self) +:+ "/health") ∧
  url (healthCheck_request test_client) = "http://localhost:3000/v1/health".
Proof.
  split; [|reflexivity].
  intros self. split; [reflexivity|]. split; [reflexivity|].
  intros Heq. apply (f_equal String.length) in Heq.
  unfold healthCheck_request, buildTokenlayUrl in Heq. cbn [url] in Heq.
  rewrite !string_length_app in Heq.
  change (String.length (strip_leading_slash "health")) with 6 in Heq.
  cbn [String.length] in Heq.
  pose proof (strip_trailing_slash_length (tokenlayBaseUrl (config self))).
  lia.
Qed.

(** [create] tags the response exactly when the request identifier is
    truthy, and always with the same object. *)
Lemma create_fulfilled {Payload Body : Type}
    (wrapped : OpenAI → Payload → Headers → Settled (Reply Body) Reason)
    (self : TokenlayOpenAI) (params : TokenlayChatCompletionCreateParams)
    (reply : Reply Body) :
  wrapped (openaiClient self) (openaiParams params)
          (buildRequestHeaders (params_metadata params)) = Fulfilled reply →
  ∃ r, create wrapped self params = Fulfilled r ∧
       body r = body (reply_value reply) ∧
       _request_id r = _request_id (reply_value reply) ∧
       _tokenlay r
       = if truthy_string (_request_id (reply_value reply))
         then Some placeholder_metadata
         else _tokenlay (reply_value reply).
Proof.
  intros Hw. unfold create. rewrite Hw.
  destruct (truthy_string (_request_id (reply_value reply))); by eexists.
Qed.

Lemma getTokenlayMetadata_absent {Body : Type} (r : ChatCompletion Body) :
  _tokenlay r = None → getTokenlayMetadata r = None.
Proof. unfold getTokenlayMetadata. by intros ->. Qed.

(** C2: on the reply of the unit test, whose headers carry rule
    "test-rule", cost 0.00018 and 18 tokens, [create] stores the fixed
    placeholder, which differs from the decoding of those headers in the
    rule identifier, the cost, the token count and the set of keys. *)
Theorem create_attaches_placeholder :
  ∃ r d,
    create (λ _ _ _, Fulfilled failing_reply) test_client plain_params = Fulfilled r ∧
    getTokenlayMetadata r = Some placeholder_metadata ∧
    parseTokenlayHeaders (reply_headers failing_reply) = Return d ∧
    d !! "ruleId" = Some (VString "test-rule") ∧
    placeholder_metadata !! "ruleId" = Some VUndefined ∧
    d !! "cost" = Some (VNumber (Dec false 18 (-5))) ∧
    placeholder_metadata !! "cost" = Some (VNumber (of_N 0)) ∧
    d !! "tokensUsed" = Some (VNumber (of_N 18)) ∧
    placeholder_metadata !! "tokensUsed" = Some (VNumber (of_N 0)) ∧
    "warnings" ∈ dom d ∧ ("warnings" ∉ dom placeholder_metadata) ∧
    placeholder_metadata ≠ d.
Proof.
  eexists. eexists.
  split; [reflexivity|]. split; [reflexivity|]. split; [reflexivity|].
  do 6 (split; [reflexivity|]).
  split; [by apply (bool_decide_unpack _)|].
  split.
  - intros Hin%(bool_decide_pack _). vm_compute in Hin. done.
  - intros Heq. apply (f_equal (λ o : Object, o !! "ruleId")) in Heq.
    vm_compute in Heq. discriminate.
Qed.

(** ** Further properties of src/utils.ts *)

(** What [Object.assign] leaves in the target: every own property of the
    source, laid over the target, except that a source property named
    [__proto__] is stored only when the target already owns one. *)
Lemma Object_assign_lookup (target source : gmap string string) (k : string) :
  Object_assign target source !! k
  = if decide (k = "__proto__") then
      match target !! k with
      | Some _ => (source ∪ target) !! k
      | None => None
      end
    else (source ∪ target) !! k.
Proof.
  unfold Object_assign. revert k.
  apply (map_fold_weak_ind
           (λ (acc : gmap string string) (src : gmap string string),
              ∀ k, acc !! k
                   = if decide (k = "__proto__") then
                       match target !! k with
                       | Some _ => (src ∪ target) !! k
                       | None => None
                       end
                     else (src ∪ target) !! k)).
  - intros k. rewrite (left_id_L ∅ (∪)).
    destruct (decide (k = "__proto__")); [|done]. by destruct (target !! k).
  - intros i x m acc Hi IH k. unfold set_property.
    destruct (decide (i = k)) as [->|Hne].
    + rewrite (lookup_union_l' (<[k:=x]> m)) by (rewrite lookup_insert_eq; by eexists).
      rewrite lookup_insert_eq.
      destruct (decide (k = "__proto__")) as [Hk|Hk].
      * rewrite (IH k). rewrite decide_True by done.
        destruct (target !! k) as [t|] eqn:Ht.
        -- rewrite lookup_union_r by done. rewrite Ht. by rewrite lookup_insert_eq.
        -- rewrite (IH k). rewrite decide_True by done. by rewrite Ht.
      * by rewrite lookup_insert_eq.
    + assert ((<[i:=x]> m ∪ target) !! k = (m ∪ target) !! k) as Hrest.
      { rewrite !lookup_union. by rewrite lookup_insert_ne. }
      rewrite Hrest, <-(IH k).
      destruct (decide (i = "__proto__")); [|by rewrite lookup_insert_ne].
      destruct (acc !! i); [by rewrite lookup_insert_ne|done].
Qed.

Lemma Object_assign_fresh (target source : gmap string string) :
  target !! "__proto__" = None →
  Object_assign target source = delete "__proto__" source ∪ target ∧
  Object_assign target source !! "__proto__" = None.
Proof.
  intros Ht. split.
  - apply map_eq. intros k. rewrite Object_assign_lookup.
    destruct (decide (k = "__proto__")) as [->|Hk].
    + rewrite Ht. symmetry. apply lookup_union_None. split; [|done].
      apply lookup_delete_eq.
    + rewrite !lookup_union. by rewrite lookup_delete_ne.
  - rewrite Object_assign_lookup. rewrite decide_True by done. by rewrite Ht.
Qed.

Lemma mergeHeaders_foldl (acc : Headers) (l : list (option Headers)) :
  acc !! "__proto__" = None →
  foldl (λ merged headers,
           match headers with
           | Some h => Object_assign merged h
           | None => merged
           end) acc l
  = mergeHeaders l ∪ acc ∧
  mergeHeaders l !! "__proto__" = None.
Proof.
  unfold mergeHeaders. revert acc.
  induction l as [|x l IH]; intros acc Hacc; cbn.
  - by rewrite (left_id_L ∅ (∪)).
  - destruct x as [h|].
    + destruct (Object_assign_fresh acc h Hacc) as [-> _].
      destruct (Object_assign_fresh ∅ h (lookup_empty _)) as [-> _].
      rewrite (right_id_L ∅ (∪)).
      assert ((delete "__proto__" h ∪ acc) !! "__proto__" = None) as H1.
      { apply lookup_union_None. split; [apply lookup_delete_eq|done]. }
      assert (delete "__proto__" h !! "__proto__" = None) as H2
        by apply lookup_delete_eq.
      destruct (IH _ H1) as [-> Hp]. destruct (IH _ H2) as [-> _].
      split; [by rewrite (assoc_L (∪))|].
      apply lookup_union_None. split; [done|apply lookup_delete_eq].
    + destruct (IH acc Hacc) as [-> Hp].
      destruct (IH ∅ (lookup_empty _)) as [-> _].
      by rewrite (right_id_L ∅ (∪)).
Qed.

Lemma mergeHeaders_snoc (l : list (option Headers)) (x : option Headers) :
  mergeHeaders (l ++ [x])
  = match x with
    | Some h => delete "__proto__" h ∪ mergeHeaders l
    | None => mergeHeaders l
    end.
Proof.
  unfold mergeHeaders at 1. rewrite foldl_app. cbn.
  destruct x as [h|]; [|done].
  apply Object_assign_fresh.
  apply (mergeHeaders_foldl ∅ l (lookup_empty _)).
Qed.

(** X1: merging a concatenation of argument lists is the merge of the later
    arguments laid over the merge of the earlier ones; an [undefined]
    argument contributes nothing; a single header object merges to itself
    without its own property [__proto__], if it has one; no argument merges
    to the empty object. *)
Theorem mergeHeaders_app (l1 l2 : list (option Headers)) (h : Headers) :
  mergeHeaders (l1 ++ l2) = mergeHeaders l2 ∪ mergeHeaders l1 ∧
  mergeHeaders (l1 ++ None :: l2) = mergeHeaders (l1 ++ l2) ∧
  mergeHeaders [Some h] = delete "__proto__" h ∧
  mergeHeaders [] = ∅.
Proof.
  assert (∀ a b, mergeHeaders (a ++ b) = mergeHeaders b ∪ mergeHeaders a) as Happ.
  { intros a b. unfold mergeHeaders at 1. rewrite foldl_app.
    apply mergeHeaders_foldl. apply (mergeHeaders_foldl ∅ a (lookup_empty _)). }
  split; [apply Happ|]. split; [|split; [|reflexivity]].
  - rewrite !Happ. f_equal.
  - etrans; [exact (mergeHeaders_snoc [] (Some h))|].
    change (mergeHeaders []) with (∅ : Headers). by rewrite (right_id_L ∅ (∪)).
Qed.

Lemma mergeHeaders_lookup_None (l : list (option Headers)) (k : string) :
  (∀ h, Some h ∈ l → h !! k = None) → mergeHeaders l !! k = None.
Proof.
  induction l as [|x l IH] using rev_ind; intros Hall; [apply lookup_empty|].
  rewrite mergeHeaders_snoc.
  assert (mergeHeaders l !! k = None) as Hl.
  { apply IH. intros h Hh. apply Hall. apply elem_of_app. by left. }
  destruct x as [h|]; [|done].
  apply lookup_union_None. split; [|done].
  destruct (decide (k = "__proto__")) as [->|Hk]; [apply lookup_delete_eq|].
  rewrite lookup_delete_ne by done. apply Hall.
  apply elem_of_app. right. by left.
Qed.

(** X2: in a merge the last argument that binds a header name other than
    [__proto__] decides its value; the name [__proto__] is never bound in
    the result, whatever the arguments bind. *)
Theorem mergeHeaders_last_wins
    (l1 l2 : list (option Headers)) (h : Headers) (k v : string) :
  k ≠ "__proto__" →
  h !! k = Some v →
  (∀ h', Some h' ∈ l2 → h' !! k = None) →
  mergeHeaders (l1 ++ Some h :: l2) !! k = Some v ∧
  mergeHeaders (l1 ++ Some h :: l2) !! "__proto__" = None.
Proof.
  intros Hproto Hk Hlater. split.
  - change (Some h :: l2) with (app [Some h] l2).
    rewrite (assoc_L app).
    destruct (mergeHeaders_app (l1 ++ [Some h]) l2 h) as [-> _].
    rewrite lookup_union_r by by apply mergeHeaders_lookup_None.
    rewrite mergeHeaders_snoc. apply lookup_union_Some_l.
    by rewrite lookup_delete_ne.
  - apply (mergeHeaders_foldl ∅ _ (lookup_empty _)).
Qed.

Lemma mergeHeaders_last_wins_witness :
  mergeHeaders [Some {[ "X-Key" := "value1" ]}; Some {[ "X-Key" := "value2" ]}; None]
    !! "X-Key" = Some "value2".
Proof.
  apply (mergeHeaders_last_wins [Some {[ "X-Key" := "value1" ]}] [None]
           {[ "X-Key" := "value2" ]} "X-Key" "value2").
  - discriminate.
  - reflexivity.
  - intros h' Hin. apply list_elem_of_singleton in Hin. discriminate.
Defined.

(** X3: the merged object binds exactly the names other than [__proto__]
    that some defined argument binds. *)
Theorem mergeHeaders_dom (l : list (option Headers)) (k : string) :
  k ∈ dom (mergeHeaders l) ↔ k ≠ "__proto__" ∧ ∃ h, Some h ∈ l ∧ k ∈ dom h.
Proof.
  induction l as [|x l IH] using rev_ind.
  - split; [intros Hk; by apply elem_of_dom in Hk as [? ?]|].
    intros (_ & h & Hin & _). by apply elem_of_nil in Hin.
  - rewrite mergeHeaders_snoc. destruct x as [h|].
    + rewrite dom_union, elem_of_union, dom_delete, elem_of_difference, IH.
      rewrite elem_of_singleton. split.
      * intros [[Hk Hne]|(Hne & h' & Hin & Hk)].
        -- split; [done|]. exists h. split; [|done].
           apply elem_of_app. right. by left.
        -- split; [done|]. exists h'. split; [|done]. apply elem_of_app. by left.
      * intros (Hne & h' & Hin & Hk). apply elem_of_app in Hin as [Hin|Hin].
        -- right. split; [done|]. by exists h'.
        -- apply list_elem_of_singleton in Hin as [= ->]. by left.
    + rewrite IH. split.
      * intros (Hne & h' & Hin & Hk). split; [done|]. exists h'.
        split; [|done]. apply elem_of_app. by left.
      * intros (Hne & h' & Hin & Hk). split; [done|]. exists h'. split; [|done].
        apply elem_of_app in Hin as [Hin|Hin]; [done|].
        by apply list_elem_of_singleton in Hin.
Qed.

(** X4: exactly one slash goes on either side: a base that ends in two
    slashes keeps one of them and an endpoint that starts with two keeps
    one, so the URL then has doubled slashes around the version segment. *)
Theorem buildTokenlayUrl_strips_one_slash (b e : string) :
  buildTokenlayUrl (b +:+ "//") ("//" +:+ e) = b +:+ "//v1//" +:+ e ∧
  buildTokenlayUrl b "" = strip_trailing_slash b +:+ "/v1/" ∧
  buildTokenlayUrl "" e = "/v1/" +:+ strip_leading_slash e.
Proof.
  split; [|split; reflexivity].
  unfold buildTokenlayUrl.
  assert (b +:+ "//" = (b +:+ "/") +:+ "/") as ->.
  { induction b as [|c b IH]; [reflexivity|].
    change (String c b +:+ "//") with (String c (b +:+ "//")).
    change ((String c b +:+ "/") +:+ "/") with (String c ((b +:+ "/") +:+ "/")).
    by rewrite IH. }
  rewrite strip_trailing_slash_snoc. cbn [strip_leading_slash String.append].
  cbn.
  induction b as [|c b IH]; [reflexivity|].
  change (String c b +:+ "/") with (String c (b +:+ "/")).
  change (String c b +:+ ?x) with (String c (b +:+ x)).
  cbn. by rewrite <-IH.
Qed.

(** X5: two metadata maps encode to the same headers exactly when they
    have the same defined entries: the encoding loses the keys bound to
    [undefined] and nothing else. *)
Theorem metadataToHeaders_inj (m1 m2 : RequestMetadata) :
  metadataToHeaders m1 = metadataToHeaders m2
  ↔ omap id m1 =@{gmap string string} omap id m2.
Proof.
  split.
  - intros Heq. apply map_eq. intros k. rewrite !lookup_omap.
    by rewrite <-!metadataToHeaders_lookup, Heq.
  - intros Heq. by rewrite !metadataToHeaders_kmap, Heq.
Qed.

(** X6: binding one more key to a string adds or overwrites exactly the
    header of that key; binding it to [undefined], or removing it, removes
    exactly that header. *)
Theorem metadataToHeaders_insert (m : RequestMetadata) (k v : string) :
  metadataToHeaders (<[k := Some v]> m)
  = <[header_prefix +:+ k := v]> (metadataToHeaders m) ∧
  metadataToHeaders (<[k := None]> m)
  = delete (header_prefix +:+ k) (metadataToHeaders m) ∧
  metadataToHeaders (delete k m)
  = delete (header_prefix +:+ k) (metadataToHeaders m).
Proof.
  rewrite !metadataToHeaders_kmap. split; [|split].
  - rewrite (omap_insert_Some id m k (Some v) v) by done.
    by rewrite kmap_insert by apply _.
  - rewrite (omap_insert_None id m k None) by done.
    by rewrite kmap_delete by apply _.
  - rewrite omap_delete. by rewrite kmap_delete by apply _.
Qed.

Lemma prefix_append (p s : string) : String.prefix p (p +:+ s) = true.
Proof.
  induction p as [|c p IH]; [by destruct s|].
  change (String c p +:+ s) with (String c (p +:+ s)).
  cbn. destruct (ascii_dec c c); [apply IH|done].
Qed.

(** X7: the headers of a call all carry the prefix "x-tokenlay-", so a
    name outside that namespace (Authorization, Content-Type) is never set
    from metadata; leaving the metadata out gives the same headers as the
    empty metadata, namely none. *)
Theorem buildRequestHeaders_namespace (md : option RequestMetadata) (h : string) :
  String.prefix header_prefix h = false →
  buildRequestHeaders md !! h = None ∧
  buildRequestHeaders None = buildRequestHeaders (Some ∅).
Proof.
  intros Hp. split; [|reflexivity].
  destruct md as [m|]; cbn; [|apply lookup_empty].
  apply eq_None_not_Some. intros Hs.
  destruct (proj2 (metadataToHeaders_spec m) h Hs) as [k ->].
  by rewrite prefix_append in Hp.
Qed.

Lemma buildRequestHeaders_namespace_witness :
  buildRequestHeaders (Some {[ "Authorization" := Some "Bearer stolen" ]})
    !! "Authorization" = None.
Proof.
  apply (buildRequestHeaders_namespace
           (Some {[ "Authorization" := Some "Bearer stolen" ]}) "Authorization").
  reflexivity.
Defined.

(** ** Further properties of the header decoding *)

(** What each member of the decoded record is, when there is one. *)
Lemma parseTokenlayHeaders_fields (headers : Headers) (r : Object) :
  parseTokenlayHeaders headers = Return r →
  r !! "limitExceeded"
  = Some (VBoolean (bool_decide (headers !! "x-tokenlay-limit-exceeded" = Some "true"))) ∧
  (∀ hn fn f, (hn, fn, f) ∈ numeric_fields →
     r !! fn = Some (VNumber (f (or_string (headers !! hn) "0")))) ∧
  (∀ text j, headers !! "x-tokenlay-warnings" = Some text →
     JSON.parse text = Return j → text ≠ "" → r !! "warnings" = Some (VJson j)).
Proof.
  unfold parseTokenlayHeaders. intros Hr.
  assert (∀ w : Value,
            r = list_to_map
                  [("ruleId", string_or_undefined (headers !! "x-tokenlay-rule-id"));
                   ("ruleAction",
                    VString (or_string (headers !! "x-tokenlay-rule-action") "allow"));
                   ("limitExceeded",
                    VBoolean (bool_decide
                                (headers !! "x-tokenlay-limit-exceeded" = Some "true")));
                   ("cost", VNumber (parseFloat (or_string (headers !! "x-tokenlay-cost") "0")));
                   ("tokensUsed",
                    VNumber (parseInt10 (or_string (headers !! "x-tokenlay-tokens-used") "0")));
                   ("inputTokens",
                    VNumber (parseInt10 (or_string (headers !! "x-tokenlay-input-tokens") "0")));
                   ("outputTokens",
                    VNumber (parseInt10 (or_string (headers !! "x-tokenlay-output-tokens") "0")));
                   ("duration",
                    VNumber (parseInt10 (or_string (headers !! "x-tokenlay-duration") "0")));
                   ("warnings", w)] →
            r !! "limitExceeded"
            = Some (VBoolean (bool_decide
                                (headers !! "x-tokenlay-limit-exceeded" = Some "true"))) ∧
            (∀ hn fn f, (hn, fn, f) ∈ numeric_fields →
               r !! fn = Some (VNumber (f (or_string (headers !! hn) "0")))) ∧
            r !! "warnings" = Some w) as Hshape.
  { intros w ->. split; [reflexivity|]. split; [|reflexivity].
    intros hn fn f Hin. unfold numeric_fields in Hin.
    repeat (apply elem_of_cons in Hin as [[= -> -> ->]|Hin]; [reflexivity|]).
    by apply elem_of_nil in Hin. }
  destruct (headers !! "x-tokenlay-warnings") as [text|] eqn:Hw.
  - destruct (truthy_string (Some text)) eqn:Ht.
    + destruct (JSON.parse text) as [j|e] eqn:Hp; cbn in Hr; [|discriminate].
      injection Hr as <-. destruct (Hshape (VJson j) eq_refl) as (H1 & H2 & H3).
      split; [done|]. split; [done|].
      intros text' j' [= <-] Hp' _. rewrite Hp in Hp'. by injection Hp' as <-.
    + cbn in Hr. injection Hr as <-.
      destruct (Hshape VUndefined eq_refl) as (H1 & H2 & H3).
      split; [done|]. split; [done|].
      intros text' j' [= <-] _ Hne. apply truthy_string_Some in Hne. congruence.
  - cbn in Hr. injection Hr as <-.
    destruct (Hshape VUndefined eq_refl) as (H1 & H2 & H3).
    split; [done|]. split; [done|]. intros text' j' [=].
Qed.

(** X8: the decoder fails exactly when the warnings header holds a
    non-empty text that is not JSON, and then with the parse error; whatever
    the other eight headers hold, numeric or not, it returns a record. *)
Theorem parseTokenlayHeaders_fails_iff (headers : Headers) :
  (parseTokenlayHeaders headers = Throw SyntaxError ↔ warnings_decodable headers = false) ∧
  ((∃ r, parseTokenlayHeaders headers = Return r) ↔ warnings_decodable headers = true).
Proof.
  pose proof (parseTokenlayHeaders_cases headers) as H.
  destruct (warnings_decodable headers) eqn:Hd.
  - destruct (parseTokenlayHeaders_returns headers Hd) as [r Hr].
    rewrite Hr. split; split; try done. by exists r.
  - destruct (parseTokenlayHeaders headers) as [r|e].
    + by destruct H as [H _].
    + destruct H as [-> _]. split; split; try done. by intros [r ?].
Qed.

(** X9: the decoder reads the nine response headers and nothing else: two
    header maps that agree on those nine names decode alike. *)
Theorem parseTokenlayHeaders_reads_nine (h1 h2 : Headers) :
  (∀ n, n ∈ tokenlay_response_headers → h1 !! n = h2 !! n) →
  parseTokenlayHeaders h1 = parseTokenlayHeaders h2.
Proof.
  intros Hagree. unfold parseTokenlayHeaders.
  rewrite !Hagree by by apply (bool_decide_unpack _).
  reflexivity.
Qed.

Lemma parseTokenlayHeaders_reads_nine_witness :
  parseTokenlayHeaders {[ "x-tokenlay-rule-id" := "r1"; "content-type" := "text/plain" ]}
  = parseTokenlayHeaders {[ "x-tokenlay-rule-id" := "r1" ]}.
Proof.
  apply parseTokenlayHeaders_reads_nine. intros n Hn.
  unfold tokenlay_response_headers in Hn.
  repeat (apply elem_of_cons in Hn as [->|Hn]; [reflexivity|]).
  by apply elem_of_nil in Hn.
Defined.

(** X10: [limitExceeded] is true exactly when the limit-exceeded header is
    the text "true", letter for letter; "TRUE", "1" or no header give
    false. *)
Theorem parseTokenlayHeaders_limitExceeded (headers : Headers) :
  warnings_decodable headers = true →
  ∃ r b,
    parseTokenlayHeaders headers = Return r ∧
    r !! "limitExceeded" = Some (VBoolean b) ∧
    (b = true ↔ headers !! "x-tokenlay-limit-exceeded" = Some "true").
Proof.
  intros Hok. destruct (parseTokenlayHeaders_returns headers Hok) as [r Hr].
  destruct (parseTokenlayHeaders_fields headers r Hr) as (Hl & _ & _).
  eexists r, _. split; [done|]. split; [exact Hl|].
  apply bool_decide_eq_true.
Qed.

Lemma parseTokenlayHeaders_limitExceeded_witness :
  ∃ r, parseTokenlayHeaders {[ "x-tokenlay-limit-exceeded" := "TRUE" ]} = Return r ∧
       r !! "limitExceeded" = Some (VBoolean false).
Proof.
  assert (warnings_decodable {[ "x-tokenlay-limit-exceeded" := "TRUE" ]} = true)
    as Hok by reflexivity.
  destruct (parseTokenlayHeaders_limitExceeded _ Hok) as (r & b & Hr & Hb & Hiff).
  exists r. split; [exact Hr|]. rewrite Hb.
  destruct b; [|reflexivity].
  destruct Hiff as [Hiff _]. specialize (Hiff eq_refl). discriminate Hiff.
Defined.

(** X11: when the warnings header holds the JSON text of null, a boolean,
    a string, an integer of magnitude up to 2^53 or an array of such values,
    the [warnings] member is that value; it is not checked to be an array of
    strings. *)
Theorem parseTokenlayHeaders_warnings_value
    (headers : Headers) (text : string) (j : JSON.Json) :
  headers !! "x-tokenlay-warnings" = Some text →
  JSON.parse text = Return j →
  exact_json j = true →
  ∃ r, parseTokenlayHeaders headers = Return r ∧ r !! "warnings" = Some (VJson j).
Proof.
  intros Hw Hp _.
  assert (text ≠ "") as Hne by (intros ->; discriminate Hp).
  assert (warnings_decodable headers = true) as Hok.
  { unfold warnings_decodable. rewrite Hw, Hp.
    by destruct (truthy_string (Some text)). }
  destruct (parseTokenlayHeaders_returns headers Hok) as [r Hr].
  exists r. split; [done|].
  by apply (parseTokenlayHeaders_fields headers r Hr) with (text := text).
Qed.

Lemma parseTokenlayHeaders_warnings_value_witness :
  ∃ r, parseTokenlayHeaders {[ "x-tokenlay-warnings" := "[42, true, null]" ]} = Return r ∧
       r !! "warnings"
       = Some (VJson (JSON.JArr [JSON.JNum (of_N 42); JSON.JBool true; JSON.JNull])).
Proof.
  apply (parseTokenlayHeaders_warnings_value _ "[42, true, null]"); reflexivity.
Defined.

(** *** Decimal text of a count *)

Lemma digit_of_pretty_N_char (d : N) :
  (d < 10)%N →
  digit_of (pretty_N_char d) = Some d ∧
  is_space (pretty_N_char d) = false ∧
  pretty_N_char d ≠ "-"%char ∧ pretty_N_char d ≠ "+"%char ∧
  ∀ rest, String.prefix "Infinity" (String (pretty_N_char d) rest) = false.
Proof.
  intros Hd.
  assert (d = 0 ∨ d = 1 ∨ d = 2 ∨ d = 3 ∨ d = 4 ∨ d = 5 ∨ d = 6 ∨ d = 7 ∨
          d = 8 ∨ d = 9)%N as Hcases by lia.
  repeat (destruct Hcases as [->|Hcases]; [by repeat split|]).
  subst d. by repeat split.
Qed.

(** Reading back the digits that [pretty] wrote gives the number and at
    least one digit. *)
Lemma read_digits_pretty_N_go (x : N) (s : string) (count : nat) :
  (0 < x)%N →
  ∃ k d rest,
    (count < k)%nat ∧
    read_digits (pretty_N_go x s) 0 count = read_digits s x k ∧
    pretty_N_go x s = String (pretty_N_char d) rest ∧ (d < 10)%N.
Proof.
  revert s count. induction (N.lt_wf_0 x) as [x _ IH]. intros s count Hx.
  rewrite pretty_N_go_step by done.
  assert (x `mod` 10 < 10)%N as Hmod by (apply N.mod_lt; lia).
  destruct (digit_of_pretty_N_char _ Hmod) as (Hdig & _).
  destruct (decide (x `div` 10 = 0)%N) as [Hz|Hnz].
  - rewrite Hz, pretty_N_go_0. exists (S count), (x `mod` 10)%N, s.
    split; [lia|]. split; [|done].
    cbn [read_digits]. rewrite Hdig. f_equal.
    pose proof (N.div_mod' x 10) as Hdm.
    remember (x `div` 10)%N as q eqn:Hq. remember (x `mod` 10)%N as m eqn:Hm.
    clear Hq Hm. lia.
  - destruct (IH (x `div` 10)%N) with
      (s := String (pretty_N_char (x `mod` 10)) s) (count := count)
      as (k & d & rest & Hk & Hread & Hfirst & Hd).
    { apply N.div_lt; lia. }
    { by apply N.neq_0_lt_0. }
    exists (S k), d, rest. split; [lia|]. split; [|done].
    rewrite Hread. cbn [read_digits]. rewrite Hdig. f_equal.
    pose proof (N.div_mod' x 10) as Hdm.
    remember (x `div` 10)%N as q eqn:Hq. remember (x `mod` 10)%N as m eqn:Hm.
    clear Hq Hm. lia.
Qed.

Lemma read_digits_pretty (n : N) :
  ∃ k d rest,
    read_digits (pretty n) 0 0 = (n, S k, "") ∧
    pretty n = String (pretty_N_char d) rest ∧ (d < 10)%N.
Proof.
  unfold pretty, pretty_N. destruct (decide (n = 0)%N) as [->|Hn].
  - by exists O, 0%N, "".
  - destruct (read_digits_pretty_N_go n "" 0) as (k & d & rest & Hk & Hread & Hf & Hd);
      [lia|].
    destruct k as [|k]; [lia|]. exists k, d, rest.
    split; [|done]. by rewrite Hread.
Qed.

Lemma parseInt10_pretty (n : N) :
  parseInt10 (pretty n) = of_N n ∧
  parseInt10 ("-" +:+ pretty n) = Dec true n 0.
Proof.
  destruct (read_digits_pretty n) as (k & d & rest & Hread & Hfirst & Hd).
  destruct (digit_of_pretty_N_char d Hd) as (_ & Hsp & Hminus & Hplus & _).
  unfold parseInt10. split.
  - assert (read_sign (trim_start (pretty n)) = (false, pretty n)) as ->.
    { rewrite Hfirst. cbn [trim_start]. rewrite Hsp. unfold read_sign.
      destruct (pretty_N_char d) as [[] [] [] [] [] [] [] []]; done. }
    cbv beta iota. by rewrite Hread.
  - change (trim_start ("-" +:+ pretty n)) with ("-" +:+ pretty n).
    change (read_sign ("-" +:+ pretty n)) with (true, pretty n).
    cbv beta iota. by rewrite Hread.
Qed.

Lemma parseFloat_pretty (n : N) :
  parseFloat (pretty n) = of_N n ∧
  parseFloat ("-" +:+ pretty n) = Dec true n 0.
Proof.
  destruct (read_digits_pretty n) as (k & d & rest & Hread & Hfirst & Hd).
  destruct (digit_of_pretty_N_char d Hd) as (_ & Hsp & Hminus & Hplus & HI).
  assert (String.prefix "Infinity" (pretty n) = false) as Hinf.
  { rewrite Hfirst. apply HI. }
  unfold parseFloat. split.
  - assert (read_sign (trim_start (pretty n)) = (false, pretty n)) as ->.
    { rewrite Hfirst. cbn [trim_start]. rewrite Hsp. unfold read_sign.
      destruct (pretty_N_char d) as [[] [] [] [] [] [] [] []]; done. }
    cbv beta iota. rewrite Hinf, Hread. reflexivity.
  - change (trim_start ("-" +:+ pretty n)) with ("-" +:+ pretty n).
    change (read_sign ("-" +:+ pretty n)) with (true, pretty n).
    cbv beta iota. rewrite Hinf, Hread. reflexivity.
Qed.

Lemma pretty_N_nonempty (n : N) : pretty n ≠ "".
Proof.
  destruct (read_digits_pretty n) as (k & d & rest & _ & Hfirst & _).
  by rewrite Hfirst.
Qed.

(** X12: a numeric header that holds the decimal text of a natural number
    up to 2^53 decodes to that number, and with a minus sign in front to
    its negative (counts are not checked to be non-negative); an absent or
    empty numeric header decodes to 0.  This holds for the cost and for the
    four integer members alike. *)
Theorem parseTokenlayHeaders_numeric
    (headers : Headers) (hn fn : string) (f : string → Number) (n : N) :
  warnings_decodable headers = true →
  (hn, fn, f) ∈ numeric_fields →
  exact_integer n →
  ∃ r x,
    parseTokenlayHeaders headers = Return r ∧
    r !! fn = Some (VNumber x) ∧
    (headers !! hn = Some (pretty n) → x = of_N n) ∧
    (headers !! hn = Some ("-" +:+ pretty n) → x = Dec true n 0) ∧
    (headers !! hn = None ∨ headers !! hn = Some "" → x = of_N 0).
Proof.
  intros Hok Hin _. destruct (parseTokenlayHeaders_returns headers Hok) as [r Hr].
  destruct (parseTokenlayHeaders_fields headers r Hr) as (_ & Hnum & _).
  exists r, (f (or_string (headers !! hn) "0")).
  split; [done|]. split; [by apply Hnum|].
  assert (∀ m, f (pretty m) = of_N m ∧ f ("-" +:+ pretty m) = Dec true m 0) as Hf.
  { intros m. unfold numeric_fields in Hin.
    apply elem_of_cons in Hin as [[= -> -> ->]|Hin]; [apply parseFloat_pretty|].
    repeat (apply elem_of_cons in Hin as [[= -> -> ->]|Hin];
            [apply parseInt10_pretty|]).
    by apply elem_of_nil in Hin. }
  repeat split.
  - intros ->. unfold or_string.
    pose proof (proj2 (truthy_string_Some (pretty n)) (pretty_N_nonempty n)) as ->.
    apply Hf.
  - intros ->. cbn. apply Hf.
  - intros [->| ->]; cbn; apply (Hf 0%N).
Qed.

Lemma parseTokenlayHeaders_numeric_witness :
  ∃ r, parseTokenlayHeaders {[ "x-tokenlay-tokens-used" := "18" ]} = Return r ∧
       r !! "tokensUsed" = Some (VNumber (of_N 18)).
Proof.
  assert (warnings_decodable {[ "x-tokenlay-tokens-used" := "18" ]} = true)
    as Hok by reflexivity.
  assert (("x-tokenlay-tokens-used", "tokensUsed", parseInt10) ∈ numeric_fields)
    as Hin by (unfold numeric_fields; right; left).
  assert (exact_integer 18) as Hn by (unfold exact_integer; lia).
  destruct (parseTokenlayHeaders_numeric _ _ _ _ 18 Hok Hin Hn)
    as (r & x & Hr & Hx & Hpos & _).
  exists r. split; [exact Hr|]. rewrite Hx. rewrite Hpos; reflexivity.
Defined.

(** ** Further properties of src/client.ts *)

Lemma validateConfig_returns (c : Credentials) :
  validateConfig c = Return tt
  ↔ ∃ tk pk, cred_tokenlayKey c = Some tk ∧ tk ≠ "" ∧
             cred_providerApiKey c = Some pk ∧ pk ≠ "".
Proof.
  unfold validateConfig. split.
  - destruct (cred_tokenlayKey c) as [[|a tk]|]; cbn; try done.
    destruct (cred_providerApiKey c) as [[|b pk]|]; cbn; try done.
    intros _. by exists (String a tk), (String b pk).
  - intros (tk & pk & -> & Htk & -> & Hpk).
    apply truthy_string_Some in Htk, Hpk. by rewrite Htk, Hpk.
Qed.

(** X13: construction succeeds exactly when both credentials are non-empty
    strings; it then creates one wrapped client, and otherwise none. *)
Theorem constructor_succeeds_iff (options : TokenlayOpenAIOptions) (w : World) :
  ((∃ self, (constructor options w).2 = Return self)
   ↔ ∃ tk pk, opt_tokenlayKey options = Some tk ∧ tk ≠ "" ∧
              opt_providerApiKey options = Some pk ∧ pk ≠ "") ∧
  (∀ self, (constructor options w).2 = Return self →
           (constructor options w).1 = openaiClient self :: w) ∧
  (∀ e, (constructor options w).2 = Throw e → (constructor options w).1 = w).
Proof.
  pose proof (validateConfig_returns (credentials options)) as Hv.
  unfold constructor.
  destruct (validateConfig (credentials options)) as [[]|e]; cbn.
  - split; [|split].
    + split; [intros _; by apply Hv|]. intros _. by eexists.
    + by intros self [= <-].
    + done.
  - split; [|split; done].
    split; [by intros [self ?]|]. intros H. by apply Hv in H.
Qed.

(** X14: the wrapped client of a constructed client authenticates with the
    Tokenlay key, not with the provider key, and talks to the proxy base URL
    followed by "/v1/"; the base URLs are the options when they are
    non-empty strings and the defaults when they are absent or empty. *)
Theorem constructor_wrapped_client
    (options : TokenlayOpenAIOptions) (w : World) (tk pk : string) :
  opt_tokenlayKey options = Some tk → tk ≠ "" →
  opt_providerApiKey options = Some pk → pk ≠ "" →
  ∃ self,
    constructor options w = (openaiClient self :: w, Return self) ∧
    apiKey (openaiClient self) = tk ∧
    tokenlayKey (config self) = tk ∧
    providerApiKey (config self) = pk ∧
    baseURL (openaiClient self)
    = strip_trailing_slash (tokenlayBaseUrl (config self)) +:+ "/v1/" ∧
    (opt_tokenlayBaseUrl options = None ∨ opt_tokenlayBaseUrl options = Some "" →
     baseURL (openaiClient self) = "https://api.tokenlay.com/v1/") ∧
    (∀ b, opt_tokenlayBaseUrl options = Some b → b ≠ "" →
          tokenlayBaseUrl (config self) = b) ∧
    (opt_providerApiBase options = None ∨ opt_providerApiBase options = Some "" →
     providerApiBase (config self) = "https://api.openai.com/v1") ∧
    (∀ b, opt_providerApiBase options = Some b → b ≠ "" →
          providerApiBase (config self) = b) ∧
    defaultHeaders (openaiClient self) = buildDefaultHeaders (config self).
Proof.
  intros Htk Hne Hpk Hnp.
  assert (validateConfig (credentials options) = Return tt) as Hv.
  { apply validateConfig_returns. by exists tk, pk. }
  exists {| openaiClient := new_OpenAI (effective_config options);
            config := effective_config options |}.
  split; [unfold constructor; by rewrite Hv|]. cbn. rewrite Htk, Hpk. cbn.
  repeat split; try done.
  - intros [-> | ->]; reflexivity.
  - intros b -> Hb. destruct b; done.
  - intros [-> | ->]; reflexivity.
  - intros b -> Hb. destruct b; done.
Qed.

Lemma constructor_wrapped_client_witness :
  ∃ self,
    constructor test_options [] = ([openaiClient self], Return self) ∧
    apiKey (openaiClient self) = "tk_test_123" ∧
    baseURL (openaiClient self) = "http://localhost:3000/v1/".
Proof.
  destruct (constructor_wrapped_client test_options [] "tk_test_123" "sk-test-456")
    as (self & Hc & Hk & _ & _ & Hurl & _ & Hbase & _); try done.
  exists self. split; [exact Hc|]. split; [exact Hk|].
  rewrite Hurl, (Hbase "http://localhost:3000"); done.
Defined.

Lemma metadataToHeaders_defined_lookup (m : gmap string string) (k : string) :
  metadataToHeaders (Some <$> m) !! (header_prefix +:+ k) = m !! k.
Proof.
  rewrite metadataToHeaders_lookup, lookup_fmap. by destruct (m !! k).
Qed.

Lemma buildDefaultHeaders_lookup (cfg : Config) (k : string) :
  buildDefaultHeaders cfg !! k
  = if decide (k = "__proto__") then None
    else (default ∅ (extraHeaders cfg)
          ∪ (default ∅ ((λ m, metadataToHeaders (Some <$> m)) <$> metadata cfg)
             ∪ {[ "x-tokenlay-provider-key" := providerApiKey cfg;
                  "x-tokenlay-provider-base" := providerApiBase cfg ]})) !! k.
Proof.
  unfold buildDefaultHeaders.
  set (control := ({[ "x-tokenlay-provider-key" := providerApiKey cfg;
                      "x-tokenlay-provider-base" := providerApiBase cfg ]}
                   : Headers)).
  assert (control !! "__proto__" = None) as Hc by reflexivity.
  set (inner := match metadata cfg with
                | Some m => Object_assign control (metadataToHeaders (Some <$> m))
                | None => control
                end).
  assert (inner !! "__proto__" = None ∧
          ∀ k, k ≠ "__proto__" →
               inner !! k
               = (default ∅ ((λ m, metadataToHeaders (Some <$> m)) <$> metadata cfg)
                  ∪ control) !! k) as [Hi Hinner].
  { unfold inner. destruct (metadata cfg) as [m|]; cbn.
    - destruct (Object_assign_fresh control (metadataToHeaders (Some <$> m)) Hc)
        as [-> Hp].
      split; [done|]. intros k' Hk'. rewrite !lookup_union.
      by rewrite lookup_delete_ne.
    - split; [done|]. intros k' _. by rewrite (left_id_L ∅ (∪)). }
  destruct (extraHeaders cfg) as [extra|]; cbn.
  - destruct (Object_assign_fresh inner extra Hi) as [-> Hp].
    destruct (decide (k = "__proto__")) as [->|Hk].
    + apply lookup_union_None. split; [apply lookup_delete_eq|done].
    + rewrite lookup_union, lookup_delete_ne by done.
      rewrite (Hinner k Hk). by rewrite <-lookup_union.
  - rewrite (left_id_L ∅ (∪)).
    destruct (decide (k = "__proto__")) as [->|Hk]; [done|]. by apply Hinner.
Qed.

(** X15: in the default headers an extra header of any name but
    [__proto__] wins over everything, the provider credential header
    included; a global metadata key "provider-key" replaces the credential
    header as well; only when neither binds that name does
    "x-tokenlay-provider-key" carry the provider key.  The name [__proto__]
    is never among the default headers. *)
Theorem buildDefaultHeaders_precedence (cfg : Config) :
  (∀ extra k v, extraHeaders cfg = Some extra → k ≠ "__proto__" →
                extra !! k = Some v →
                buildDefaultHeaders cfg !! k = Some v) ∧
  (∀ m v, metadata cfg = Some m → m !! "provider-key" = Some v →
          (∀ extra, extraHeaders cfg = Some extra →
                    extra !! "x-tokenlay-provider-key" = None) →
          buildDefaultHeaders cfg !! "x-tokenlay-provider-key" = Some v) ∧
  ((∀ m, metadata cfg = Some m → m !! "provider-key" = None) →
   (∀ extra, extraHeaders cfg = Some extra →
             extra !! "x-tokenlay-provider-key" = None) →
   buildDefaultHeaders cfg !! "x-tokenlay-provider-key" = Some (providerApiKey cfg)) ∧
  buildDefaultHeaders cfg !! "__proto__" = None.
Proof.
  split; [|split; [|split]].
  - intros extra k v He Hk Hv. rewrite buildDefaultHeaders_lookup.
    rewrite decide_False by done. rewrite He. cbn.
    by apply lookup_union_Some_l.
  - intros m v Hm Hv Hextra. rewrite buildDefaultHeaders_lookup.
    rewrite decide_False by done. rewrite Hm. cbn.
    assert (metadataToHeaders (Some <$> m) !! "x-tokenlay-provider-key" = Some v) as Hmd.
    { change "x-tokenlay-provider-key" with (header_prefix +:+ "provider-key").
      by rewrite metadataToHeaders_defined_lookup. }
    rewrite lookup_union_r.
    + by apply lookup_union_Some_l.
    + destruct (extraHeaders cfg) as [extra|]; cbn; [by apply Hextra|done].
  - intros Hmeta Hextra. rewrite buildDefaultHeaders_lookup.
    rewrite decide_False by done.
    rewrite lookup_union_r.
    + rewrite lookup_union_r; [by rewrite lookup_insert_eq|].
      destruct (metadata cfg) as [m|]; cbn; [|done].
      change "x-tokenlay-provider-key" with (header_prefix +:+ "provider-key").
      rewrite metadataToHeaders_defined_lookup. by apply Hmeta.
    + destruct (extraHeaders cfg) as [extra|]; cbn; [by apply Hextra|done].
  - rewrite buildDefaultHeaders_lookup. by rewrite decide_True.
Qed.

Lemma buildDefaultHeaders_precedence_witness :
  buildDefaultHeaders (config metadata_override_client) !! "x-tokenlay-provider-key"
  = Some "from-metadata" ∧
  buildDefaultHeaders test_config !! "x-tokenlay-provider-key" = Some "sk-test-456".
Proof.
  split.
  - apply (buildDefaultHeaders_precedence (config metadata_override_client))
      with (m := {[ "provider-key" := "from-metadata" ]}); [reflexivity| reflexivity |].
    intros extra Hextra. discriminate Hextra.
  - apply (buildDefaultHeaders_precedence test_config).
    + intros m Hm. discriminate Hm.
    + intros extra Hextra. discriminate Hextra.
Defined.

(** The entries that [updateMetadata] copies into [filteredMetadata]: those
    with a defined value, except one named [__proto__]. *)
Lemma updateMetadata_metadata (self : TokenlayOpenAI) (md : RequestMetadata) :
  metadata (config (updateMetadata self md))
  = Some (delete "__proto__" (omap id md) ∪ default ∅ (metadata (config self))).
Proof.
  unfold updateMetadata; cbn. do 2 f_equal.
  apply (map_fold_weak_ind
           (λ (acc : gmap string string) (m : RequestMetadata),
              acc = delete "__proto__" (omap id m))).
  - by rewrite omap_empty, delete_empty.
  - intros i x m acc Hi ->.
    assert (omap id m !! i = None) as Hoi by (by rewrite lookup_omap, Hi).
    destruct x as [v|].
    + rewrite (omap_insert_Some id m i (Some v) v) by done.
      unfold set_property. destruct (decide (i = "__proto__")) as [->|Hne].
      * rewrite lookup_delete_eq. by rewrite delete_insert_eq.
      * by rewrite delete_insert_ne.
    + rewrite (omap_insert_None id m i None) by done.
      by rewrite (delete_id _ i Hoi).
Qed.

(** X16: after [updateMetadata] the stored global metadata binds a key
    other than [__proto__] to the new value when the update gives it a
    string, and to what it was bound before when the update omits it or
    gives [undefined] (an update never removes a key); an update entry
    named [__proto__] is ignored; credentials, URLs, timeout, retries and
    extra headers are untouched. *)
Theorem updateMetadata_lookup (self : TokenlayOpenAI) (md : RequestMetadata) :
  ∃ m,
    metadata (config (updateMetadata self md)) = Some m ∧
    (∀ k, m !! k = match (if decide (k = "__proto__") then None
                          else md !! k ≫= id) with
                   | Some v => Some v
                   | None => default ∅ (metadata (config self)) !! k
                   end) ∧
    tokenlayKey (config (updateMetadata self md)) = tokenlayKey (config self) ∧
    providerApiKey (config (updateMetadata self md)) = providerApiKey (config self) ∧
    providerApiBase (config (updateMetadata self md)) = providerApiBase (config self) ∧
    tokenlayBaseUrl (config (updateMetadata self md)) = tokenlayBaseUrl (config self) ∧
    timeout (config (updateMetadata self md)) = timeout (config self) ∧
    maxRetries (config (updateMetadata self md)) = maxRetries (config self) ∧
    extraHeaders (config (updateMetadata self md)) = extraHeaders (config self).
Proof.
  eexists. split; [apply updateMetadata_metadata|]. split; [|done].
  intros k. rewrite lookup_union.
  destruct (decide (k = "__proto__")) as [->|Hk].
  - rewrite lookup_delete_eq.
    by destruct (default ∅ (metadata (config self)) !! "__proto__").
  - rewrite lookup_delete_ne by done. rewrite lookup_omap.
    destruct (md !! k ≫= id) as [v|]; cbn;
      by destruct (default ∅ (metadata (config self)) !! k).
Qed.

(** X17: two updates in a row store the second update's defined entries
    laid over the first's laid over the original metadata (entries named
    [__proto__] left out of both), and repeating an update changes
    nothing. *)
Theorem updateMetadata_compose (self : TokenlayOpenAI) (md1 md2 : RequestMetadata) :
  metadata (config (updateMetadata (updateMetadata self md1) md2))
  = Some (delete "__proto__" (omap id md2)
          ∪ (delete "__proto__" (omap id md1) ∪ default ∅ (metadata (config self)))) ∧
  updateMetadata (updateMetadata self md1) md1 = updateMetadata self md1.
Proof.
  split.
  - by rewrite !updateMetadata_metadata.
  - assert (metadata (config (updateMetadata (updateMetadata self md1) md1))
            = metadata (config (updateMetadata self md1))) as Hm.
    { rewrite (updateMetadata_metadata (updateMetadata self md1) md1).
      rewrite (updateMetadata_metadata self md1). cbn.
      by rewrite (assoc_L (∪)), (idemp_L (∪)). }
    destruct self as [client cfg]. unfold updateMetadata in *; cbn in *.
    by rewrite Hm.
Qed.

(** X18: neither update reaches the wrapped client: its default headers
    stay those built at construction.  So after [updateProviderKey] on a
    constructed client whose options had neither metadata nor extra
    headers, the stored provider key is the new one while the header sent
    with every call still carries the old one. *)
Theorem updates_leave_wrapped_client
    (options : TokenlayOpenAIOptions) (w w' : World) (self : TokenlayOpenAI)
    (md : RequestMetadata) (key : string) :
  constructor options w = (w', Return self) →
  openaiClient (updateMetadata self md) = openaiClient self ∧
  openaiClient (updateProviderKey self key) = openaiClient self ∧
  providerApiKey (config (updateProviderKey self key)) = key ∧
  defaultHeaders (openaiClient (updateProviderKey self key))
  = buildDefaultHeaders (config self) ∧
  (opt_metadata options = None → opt_extraHeaders options = None →
   defaultHeaders (openaiClient (updateProviderKey self key)) !! "x-tokenlay-provider-key"
   = Some (providerApiKey (config self))).
Proof.
  unfold constructor.
  destruct (validateConfig (credentials options)) as [[]|e]; [|done].
  intros [= <- <-]. cbn. repeat split.
  intros Hm He. unfold buildDefaultHeaders; cbn. rewrite Hm, He.
  by rewrite lookup_insert_eq.
Qed.

Lemma updates_leave_wrapped_client_witness :
  providerApiKey (config (updateProviderKey test_client "sk-rotated")) = "sk-rotated" ∧
  defaultHeaders (openaiClient (updateProviderKey test_client "sk-rotated"))
    !! "x-tokenlay-provider-key" = Some "sk-test-456".
Proof.
  destruct (updates_leave_wrapped_client test_options [] [openaiClient test_client]
              test_client ∅ "sk-rotated" eq_refl) as (_ & _ & Hkey & _ & Hold).
  split; [exact Hkey|]. apply Hold; reflexivity.
Defined.

(** X19: a chat-completion call reads the wrapped client only, never the
    stored configuration: after either update the call does what it did
    before. *)
Theorem create_ignores_updates {Payload Body : Type}
    (wrapped : OpenAI → Payload → Headers → Settled (Reply Body) Reason)
    (self : TokenlayOpenAI) (params : TokenlayChatCompletionCreateParams)
    (md : RequestMetadata) (key : string) :
  create wrapped (updateMetadata self md) params = create wrapped self params ∧
  create wrapped (updateProviderKey self key) params = create wrapped self params.
Proof. split; reflexivity. Qed.

Lemma buildRequestHeaders_expected (md : option RequestMetadata) :
  buildRequestHeaders md = expected_call_headers md.
Proof.
  unfold expected_call_headers. destruct md as [m|]; cbn.
  - apply metadataToHeaders_kmap.
  - by rewrite omap_empty, kmap_empty.
Qed.

(** X20: the call depends on the wrapped client's [create] through one
    invocation only: with the wrapped client, the payload unchanged, and as
    headers one "x-tokenlay-<key>" per per-call metadata entry that has a
    defined value.  Two wrapped implementations that agree on that
    invocation give the same result, and when it is rejected the rejection
    is passed on as it is. *)
Theorem create_forwards {Payload Body : Type}
    (wrapped1 wrapped2 : OpenAI → Payload → Headers → Settled (Reply Body) Reason)
    (self : TokenlayOpenAI) (params : TokenlayChatCompletionCreateParams) :
  wrapped1 (openaiClient self) (openaiParams params)
           (expected_call_headers (params_metadata params))
  = wrapped2 (openaiClient self) (openaiParams params)
             (expected_call_headers (params_metadata params)) →
  create wrapped1 self params = create wrapped2 self params ∧
  (∀ reason,
     wrapped1 (openaiClient self) (openaiParams params)
              (expected_call_headers (params_metadata params)) = Rejected reason →
     create wrapped1 self params = Rejected reason).
Proof.
  rewrite <-buildRequestHeaders_expected.
  intros Heq. unfold create. rewrite Heq. split; [done|].
  by intros reason ->.
Qed.

Lemma create_forwards_witness :
  create rejects_user_123 test_client metadata_params
  = Rejected (ErrorInstance "401").
Proof.
  apply (create_forwards rejects_user_123
           (λ _ _ _, Rejected (ErrorInstance "401")) test_client metadata_params).
  - vm_compute. reflexivity.
  - vm_compute. reflexivity.
Defined.

(** X21: when the wrapped call resolves to an object without a
    [_tokenlay] property, the object returned carries metadata exactly when
    its request identifier is a non-empty string; payload and identifier are
    those the wrapped call returned. *)
Theorem create_metadata_iff {Payload Body : Type}
    (wrapped : OpenAI → Payload → Headers → Settled (Reply Body) Reason)
    (self : TokenlayOpenAI) (params : TokenlayChatCompletionCreateParams)
    (reply : Reply Body) :
  wrapped (openaiClient self) (openaiParams params)
          (buildRequestHeaders (params_metadata params)) = Fulfilled reply →
  _tokenlay (reply_value reply) = None →
  ∃ r,
    create wrapped self params = Fulfilled r ∧
    body r = body (reply_value reply) ∧
    _request_id r = _request_id (reply_value reply) ∧
    (is_Some (getTokenlayMetadata r)
     ↔ ∃ id, _request_id (reply_value reply) = Some id ∧ id ≠ "") ∧
    (getTokenlayMetadata r = None
     ↔ _request_id (reply_value reply) = None ∨ _request_id (reply_value reply) = Some "").
Proof.
  intros Hw Hnone. unfold create. rewrite Hw.
  destruct (reply_value reply) as [b rid tl] eqn:Hrv. cbn in *. subst tl.
  destruct rid as [[|c id]|]; cbn -[placeholder_metadata]; eexists;
    (split; [reflexivity|]); cbn -[placeholder_metadata];
    repeat split; try done.
  - intros (id & [= <-] & Hne). done.
  - intros _. by right.
  - intros _. by eexists.
  - intros [?|?]; done.
  - intros (id & ? & _). done.
  - intros _. by left.
Qed.

Lemma create_metadata_iff_witness :
  ∃ r, create (λ _ _ _, Fulfilled failing_reply) test_client plain_params = Fulfilled r ∧
       is_Some (getTokenlayMetadata r).
Proof.
  destruct (create_metadata_iff (λ _ _ _, Fulfilled failing_reply)
              test_client plain_params failing_reply eq_refl eq_refl)
    as (r & Hr & _ & _ & Hsome & _).
  exists r. split; [exact Hr|]. apply Hsome.
  exists "req_test_123". split; [reflexivity|discriminate].
Defined.

(** X22: the health check reports ok exactly when the GET resolved with a
    2xx status, and only then has no message; a rejection with a value that
    is not an Error is reported with the message "Unknown error". *)
Theorem healthCheck_ok_iff
    (fetch : Request → Settled Response Reason) (self : TokenlayOpenAI) :
  ∃ h,
    healthCheck fetch self = Fulfilled h ∧
    (health_status h = StatusOk
     ↔ ∃ r, fetch (healthCheck_request self) = Fulfilled r ∧ status_2xx r) ∧
    (health_message h = None ↔ health_status h = StatusOk) ∧
    (fetch (healthCheck_request self) = Rejected OtherReason
     → health_message h = Some "Unknown error").
Proof.
  unfold healthCheck.
  destruct (fetch (healthCheck_request self)) as [r|[message|]] eqn:Hf.
  - destruct (ok r) eqn:Hok; eexists; (split; [reflexivity|]); cbn.
    + apply ok_2xx in Hok. repeat split; try done. intros _. by exists r.
    + repeat split; try done. intros (r' & [= <-] & H2xx%ok_2xx). congruence.
  - eexists. split; [reflexivity|]. cbn. repeat split; try done.
    by intros (r' & ? & _).
  - eexists. split; [reflexivity|]. cbn. repeat split; try done.
    by intros (r' & ? & _).
Qed.

(** X23: a constructed client probes the proxy it was configured with,
    authenticated with its Tokenlay key; with no base URL given the probe
    goes to "https://api.tokenlay.com/v1/health", and neither update changes
    the request. *)
Theorem healthCheck_of_constructed
    (options : TokenlayOpenAIOptions) (w w' : World) (self : TokenlayOpenAI)
    (md : RequestMetadata) (key : string) :
  constructor options w = (w', Return self) →
  ∃ tk,
    opt_tokenlayKey options = Some tk ∧
    request_headers (healthCheck_request self) = {[ "Authorization" := "Bearer " +:+ tk ]} ∧
    url (healthCheck_request self)
    = strip_trailing_slash
        (or_string (opt_tokenlayBaseUrl options) DEFAULT_TOKENLAY_BASE_URL)
      +:+ "/v1/health" ∧
    (opt_tokenlayBaseUrl options = None →
     url (healthCheck_request self) = "https://api.tokenlay.com/v1/health") ∧
    healthCheck_request (updateProviderKey self key) = healthCheck_request self ∧
    healthCheck_request (updateMetadata self md) = healthCheck_request self.
Proof.
  intros Hc.
  assert (validateConfig (credentials options) = Return tt) as Hv.
  { unfold constructor in Hc.
    by destruct (validateConfig (credentials options)) as [[]|e]. }
  destruct (proj1 (validateConfig_returns _) Hv) as (tk & pk & Htk & _ & Hpk & _).
  cbn in Htk, Hpk. exists tk. split; [done|].
  unfold constructor in Hc. rewrite Hv in Hc. injection Hc as _ <-.
  unfold healthCheck_request; cbn. rewrite Htk. cbn.
  repeat split. by intros ->.
Qed.

Lemma healthCheck_of_constructed_witness :
  url (healthCheck_request test_client) = "http://localhost:3000/v1/health" ∧
  request_headers (healthCheck_request test_client)
  = {[ "Authorization" := "Bearer tk_test_123" ]}.
Proof.
  destruct (healthCheck_of_constructed test_options [] [openaiClient test_client]
              test_client ∅ "k" eq_refl) as (tk & Htk & Hh & Hu & _).
  injection Htk as <-. split; [exact Hu|exact Hh].
Defined.
